(** * The ingestion engine of the OLAP data lakehouse (etl-go/main.go)

    A shallow embedding of the ETL service: identifier sanitization,
    column-type inference, the delimited-text extractor, the column
    classifier, the view synthesizer and the two sinks (object store and
    warehouse), followed by the properties stated about them.

    Conventions.
    - A Go [string] is a sequence of bytes: Rocq's [string].  Runes are [Z].
    - [interface{}] values are the tagged sum [Value].
    - [DataRecord] (a Go [map[string]interface{}]) is a [gmap string Value].
    - Go's standard library is modelled where the code calls it:
      [strings.ToLower], [strings.Map] and [strings.Contains] with the
      UTF-8 decoding they rely on, and the reader of encoding/csv with
      the settings [csv.NewReader] gives it.  The Unicode case table
      ([unicode.ToLower]), [json.Marshal] and [filepath.Base] are
      parameters.
    - Calls to MinIO and PostgreSQL are answered by the records
      [MinioClient] and [DB], which see the calls made so far; every call
      is appended to a trace of [Event]s.
    - [log.Printf] output is not part of the model. *)

From Stdlib Require Import ZArith Ascii String Bool.
From stdpp Require Import gmap strings list pretty.

Local Open Scope Z_scope.

(** ** Bytes *)

Definition byte (c : ascii) : Z := Z.of_N (N_of_ascii c).

(** Go's conversion [byte(r)]: the low eight bits. *)
Definition chr (z : Z) : ascii := ascii_of_N (Z.to_N (z mod 256)).

Fixpoint all_bytes (p : ascii -> bool) (s : string) : bool :=
  match s with
  | EmptyString => true
  | String c t => p c && all_bytes p t
  end.

Fixpoint map_bytes (f : ascii -> ascii) (s : string) : string :=
  match s with
  | EmptyString => EmptyString
  | String c t => String (f c) (map_bytes f t)
  end.

(** [len(s)] *)
Definition len (s : string) : Z := Z.of_nat (String.length s).

(** ** unicode/utf8, as far as [range] and [strings.Map] use it *)

Module utf8.

Definition RuneError : Z := 65533.
Definition RuneSelf : Z := 128.
Definition MaxRune : Z := 1114111.

(** The table [first] together with [acceptRanges]: for a lead byte,
    the length of the sequence and the range its second byte must lie
    in; [None] for the bytes that cannot start a sequence. *)
Definition first (s0 : Z) : option (Z * Z * Z) :=
  if (194 <=? s0) && (s0 <=? 223) then Some (2, 128, 191)
  else if s0 =? 224 then Some (3, 160, 191)
  else if (225 <=? s0) && (s0 <=? 236) then Some (3, 128, 191)
  else if s0 =? 237 then Some (3, 128, 159)
  else if (238 <=? s0) && (s0 <=? 239) then Some (3, 128, 191)
  else if s0 =? 240 then Some (4, 144, 191)
  else if (241 <=? s0) && (s0 <=? 243) then Some (4, 128, 191)
  else if s0 =? 244 then Some (4, 128, 143)
  else None.

Definition between (lo hi : Z) (c : ascii) : bool :=
  (lo <=? byte c) && (byte c <=? hi).

(** [utf8.DecodeRuneInString]: the rune at the head of [s] and its
    width; an invalid or truncated sequence is [RuneError] of width 1. *)
Definition DecodeRuneInString (s : string) : Z * nat :=
  match s with
  | EmptyString => (RuneError, 0%nat)
  | String c0 t0 =>
      let s0 := byte c0 in
      if s0 <? RuneSelf then (s0, 1%nat)
      else
        match first s0 with
        | None => (RuneError, 1%nat)
        | Some (sz, lo, hi) =>
            match t0 with
            | EmptyString => (RuneError, 1%nat)
            | String c1 t1 =>
                if negb (between lo hi c1) then (RuneError, 1%nat)
                else if sz <=? 2 then
                  (Z.lor (Z.shiftl (Z.land s0 31) 6) (Z.land (byte c1) 63), 2%nat)
                else
                  match t1 with
                  | EmptyString => (RuneError, 1%nat)
                  | String c2 t2 =>
                      if negb (between 128 191 c2) then (RuneError, 1%nat)
                      else if sz <=? 3 then
                        (Z.lor (Z.lor (Z.shiftl (Z.land s0 15) 12)
                                      (Z.shiftl (Z.land (byte c1) 63) 6))
                               (Z.land (byte c2) 63), 3%nat)
                      else
                        match t2 with
                        | EmptyString => (RuneError, 1%nat)
                        | String c3 _ =>
                            if negb (between 128 191 c3) then (RuneError, 1%nat)
                            else
                              (Z.lor (Z.lor (Z.lor (Z.shiftl (Z.land s0 7) 18)
                                                   (Z.shiftl (Z.land (byte c1) 63) 12))
                                            (Z.shiftl (Z.land (byte c2) 63) 6))
                                     (Z.land (byte c3) 63), 4%nat)
                        end
                  end
            end
        end
  end.

Definition enc3 (r : Z) : string :=
  String (chr (Z.lor 224 (Z.shiftr r 12)))
    (String (chr (Z.lor 128 (Z.land (Z.shiftr r 6) 63)))
       (String (chr (Z.lor 128 (Z.land r 63))) EmptyString)).

(** [utf8.AppendRune] on an empty buffer. *)
Definition EncodeRune (r : Z) : string :=
  if (0 <=? r) && (r <=? 127) then String (chr r) EmptyString
  else if (0 <=? r) && (r <=? 2047) then
    String (chr (Z.lor 192 (Z.shiftr r 6)))
      (String (chr (Z.lor 128 (Z.land r 63))) EmptyString)
  else if (r <? 0) || (MaxRune <? r) || ((55296 <=? r) && (r <=? 57343)) then
    enc3 RuneError
  else if r <=? 65535 then enc3 r
  else
    String (chr (Z.lor 240 (Z.shiftr r 18)))
      (String (chr (Z.lor 128 (Z.land (Z.shiftr r 12) 63)))
         (String (chr (Z.lor 128 (Z.land (Z.shiftr r 6) 63)))
            (String (chr (Z.lor 128 (Z.land r 63))) EmptyString))).

End utf8.

(** ** Package strings *)

(** [strings.Map]: every rune of [s] (decoded as [range] does) is passed
    to [mapping]; a negative result drops the rune, any other result is
    written in UTF-8.  [skip] counts the bytes of the current rune that
    are still to be stepped over. *)
Fixpoint Map_from (mapping : Z -> Z) (skip : nat) (s : string) : string :=
  match s with
  | EmptyString => EmptyString
  | String _ t =>
      match skip with
      | S k => Map_from mapping k t
      | O =>
          let '(c, width) := utf8.DecodeRuneInString s in
          let r := mapping c in
          (if 0 <=? r then utf8.EncodeRune r else EmptyString)
            +:+ Map_from mapping (Nat.pred width) t
      end
  end.

Definition strings_Map (mapping : Z -> Z) (s : string) : string :=
  Map_from mapping 0 s.

Definition isASCII (s : string) : bool :=
  all_bytes (fun c => byte c <? utf8.RuneSelf) s.

Definition lower_byte (c : ascii) : ascii :=
  if (byte "A" <=? byte c) && (byte c <=? byte "Z")
  then chr (byte c + (byte "a" - byte "A")) else c.

Section Lower.

(** [unicode.ToLower], Go's table of simple case mappings. *)
Variable unicode_ToLower : Z -> Z.

(** [strings.ToLower]: bytewise on an ASCII string, rune by rune
    otherwise. *)
Definition strings_ToLower (s : string) : string :=
  if isASCII s then map_bytes lower_byte s
  else strings_Map unicode_ToLower s.

End Lower.

(** [strings.HasPrefix] and [strings.Contains] *)
Fixpoint strings_HasPrefix (s prefix : string) : bool :=
  match prefix, s with
  | EmptyString, _ => true
  | String p pt, String c t => bool_decide (p = c) && strings_HasPrefix t pt
  | String _ _, EmptyString => false
  end.

Fixpoint strings_Contains (s substr : string) : bool :=
  strings_HasPrefix s substr ||
  match s with
  | EmptyString => false
  | String _ t => strings_Contains t substr
  end.

(** [s[:n]] for [n <= len(s)] *)
Fixpoint take_bytes (n : nat) (s : string) : string :=
  match n, s with
  | S k, String c t => String c (take_bytes k t)
  | _, _ => EmptyString
  end.

(** ** Identifier sanitization *)

(** The function literal handed to [strings.Map]. *)
Definition sanitize_rune (r : Z) : Z :=
  if ((byte "a" <=? r) && (r <=? byte "z"))
     || ((byte "0" <=? r) && (r <=? byte "9"))
     || (r =? byte "_")
  then r else byte "_".

Definition is_digit (c : ascii) : bool := (byte "0" <=? byte c) && (byte c <=? byte "9").
Definition is_lower (c : ascii) : bool := (byte "a" <=? byte c) && (byte c <=? byte "z").
Definition is_underscore (c : ascii) : bool := byte c =? byte "_".

(** [len(s) > 0 && ((s[0] >= '0' && s[0] <= '9') || s[0] == '_')] *)
Definition needs_prefix (s : string) : bool :=
  match s with
  | EmptyString => false
  | String c _ => is_digit c || is_underscore c
  end.

Definition truncate63 (s : string) : string :=
  if 63 <? len s then take_bytes 63 s else s.

Section Sanitize.

Variable unicode_ToLower : Z -> Z.

Definition SanitizeTableName (tableName : string) : string :=
  let tableName := strings_ToLower unicode_ToLower tableName in
  let tableName := strings_Map sanitize_rune tableName in
  let tableName := if needs_prefix tableName then "t_" +:+ tableName else tableName in
  truncate63 tableName.

Definition SanitizeColumnName (colName : string) : string :=
  let colName := strings_ToLower unicode_ToLower colName in
  let colName := strings_Map sanitize_rune colName in
  let colName := if needs_prefix colName then "c_" +:+ colName else colName in
  truncate63 colName.

End Sanitize.

(** A simple-case lower-casing that agrees with Go on ASCII, on the
    Kelvin sign and on the dotted capital I, the two runes outside ASCII
    whose lower case is an ASCII letter; used to run the definitions. *)
Definition simple_ToLower (r : Z) : Z :=
  if (byte "A" <=? r) && (r <=? byte "Z") then r + (byte "a" - byte "A")
  else if r =? 8490 then byte "k"
  else if r =? 304 then byte "i"
  else r.

(** The regular expression [^[a-z_][a-z0-9_]{0,62}$] as a matcher. *)
Definition ident_byte (c : ascii) : bool := is_lower c || is_digit c || is_underscore c.

Definition matches_identifier (s : string) : bool :=
  match s with
  | EmptyString => false
  | String c t =>
      (is_lower c || is_underscore c) && all_bytes ident_byte t
      && (len t <=? 62)
  end.

(** The shape both sanitizers produce and leave alone. *)
Definition clean (s : string) : bool :=
  all_bytes ident_byte s && negb (needs_prefix s) && (len s <=? 63).

(** The two sanitizers differ in the role marker only. *)
Definition sanitize_with (unicode_ToLower : Z -> Z) (marker s : string) : string :=
  let s := strings_ToLower unicode_ToLower s in
  let s := strings_Map sanitize_rune s in
  let s := if needs_prefix s then marker +:+ s else s in
  truncate63 s.

(** ** Values and records *)

(** The dynamic types an [interface{}] holds in a record. *)
Inductive Value : Type :=
| VNil                      (* nil *)
| VInt (n : Z)              (* int, int8 .. int64, uint, uint8 .. uint64 *)
| VFloat (bits : Z)         (* float32, float64; the number is never inspected *)
| VString (s : string)
| VBool (b : bool)
| VOther (repr : string).   (* any other dynamic type: []byte, time.Time, nested JSON *)

(** [type DataRecord map[string]interface{}] *)
Abbreviation DataRecord := (gmap string Value).

(** Go's [error] values: those of encoding/csv (positions left out),
    those made by [fmt.Errorf] from a constant text, those made by
    [fmt.Errorf(prefix + "%v", err)], and those handed back by the
    operating system, MinIO and the database driver. *)
Inductive csv_error : Type := ErrFieldCount | ErrBareQuote | ErrQuote.

Inductive error : Type :=
| CsvError (e : csv_error)
| Errorf (msg : string)
| Wrap (prefix : string) (cause : error)
| External (msg : string).

Inductive Result (A : Type) : Type :=
| Ok (a : A)
| Fail (err : error).
Arguments Ok {A} a.
Arguments Fail {A} err.

(** [strings.Join] *)
Fixpoint strings_Join (elems : list string) (sep : string) : string :=
  match elems with
  | [] => EmptyString
  | [x] => x
  | x :: rest => x +:+ sep +:+ strings_Join rest sep
  end.

(** ** Column-type inference *)

Record TypeFlags : Type := mkFlags {
  hasInt : bool; hasFloat : bool; hasString : bool; hasDate : bool
}.

Section Infer.

Variable unicode_ToLower : Z -> Z.

(** [strings.Contains(strings.ToLower(v), "20") && len(v) >= 8] *)
Definition looks_like_date (v : string) : bool :=
  strings_Contains (strings_ToLower unicode_ToLower v) "20" && (8 <=? len v).

(** One turn of the loop over the sampled values. *)
Definition observe (f : TypeFlags) (value : Value) : TypeFlags :=
  match value with
  | VNil => f
  | VInt _ => mkFlags true (hasFloat f) (hasString f) (hasDate f)
  | VFloat _ => mkFlags (hasInt f) true (hasString f) (hasDate f)
  | VString v =>
      if looks_like_date v
      then mkFlags (hasInt f) (hasFloat f) (hasString f) true
      else mkFlags (hasInt f) (hasFloat f) true (hasDate f)
  | VBool _ | VOther _ => mkFlags (hasInt f) (hasFloat f) true (hasDate f)
  end.

Definition InferColumnType (values : list Value) : string :=
  let f := fold_left observe values (mkFlags false false false false) in
  if hasFloat f then "NUMERIC"
  else if hasInt f && negb (hasFloat f) && negb (hasString f) then "INTEGER"
  else if hasDate f && negb (hasString f) then "DATE"
  else "TEXT".

End Infer.

(** The priority rule in the words of the specification.  A text value
    is a string; it is date-like when it contains ["20"] and is at least
    eight bytes long, plain otherwise. *)
Definition is_float_value (v : Value) : bool :=
  match v with VFloat _ => true | _ => false end.
Definition is_int_value (v : Value) : bool :=
  match v with VInt _ => true | _ => false end.
Definition is_text_value (v : Value) : bool :=
  match v with VString _ => true | _ => false end.
Definition date_like (s : string) : bool :=
  strings_Contains s "20" && (8 <=? len s).
Definition is_date_like_text (v : Value) : bool :=
  match v with VString s => date_like s | _ => false end.
Definition is_plain_text (v : Value) : bool :=
  match v with VString s => negb (date_like s) | _ => false end.

Definition spec_InferColumnType (values : list Value) : string :=
  if existsb is_float_value values then "NUMERIC"
  else if existsb is_int_value values
          && negb (existsb is_float_value values || existsb is_text_value values)
  then "INTEGER"
  else if existsb is_date_like_text values && negb (existsb is_plain_text values)
  then "DATE"
  else "TEXT".

(** What the code counts as plain: a text that is not date-like, and
    every non-nil value that is neither a number nor a string. *)
Definition counts_as_plain (v : Value) : bool :=
  match v with
  | VString s => negb (date_like s)
  | VBool _ | VOther _ => true
  | _ => false
  end.

Definition priority_InferColumnType (values : list Value) : string :=
  if existsb is_float_value values then "NUMERIC"
  else if existsb is_int_value values && negb (existsb counts_as_plain values)
  then "INTEGER"
  else if existsb is_date_like_text values && negb (existsb counts_as_plain values)
  then "DATE"
  else "TEXT".

(** What the proofs below need to know of Go's [unicode.ToLower]: it has
    no negative result, it is the usual lower-casing on ASCII, and no
    rune outside ASCII has a digit as its lower case. *)
Record ToLower_facts (lower : Z -> Z) : Prop := {
  lower_nonneg : forall r, 0 <= r -> 0 <= lower r;
  lower_ascii : forall r, 0 <= r < 128 ->
    lower r = if (65 <=? r) && (r <=? 90) then r + 32 else r;
  lower_no_digit : forall r, 128 <= r -> ~ (48 <= lower r <= 57)
}.

Definition is_high (c : ascii) : bool := 128 <=? byte c.

Definition not_2_or_0 (c : ascii) : bool :=
  negb (byte c =? 48) && negb (byte c =? 50).

(** A one-pass search for ["20"]: [prev2] tells whether the byte just
    read was ['2']. *)
Fixpoint scan20 (prev2 : bool) (s : string) : bool :=
  match s with
  | EmptyString => false
  | String c t => (prev2 && (byte c =? 48)) || scan20 (byte c =? 50) t
  end.

(** The next [k] bytes exist and are continuation or lead bytes. *)
Fixpoint high_bytes (k : nat) (s : string) : Prop :=
  match k with
  | O => True
  | S k' =>
      match s with
      | EmptyString => False
      | String c t => 128 <= byte c /\ high_bytes k' t
      end
  end.

(** ** The delimited-text extractor *)

Definition nl : ascii := "010"%char.
Definition cr : ascii := "013"%char.
Definition comma : ascii := ","%char.
Definition quote : ascii := "034"%char.

(** encoding/csv's [readLine]: a carriage return before a line feed is
    dropped on every line, and so is one at the very end of the input. *)
Fixpoint normalize_newlines (s : string) : string :=
  match s with
  | EmptyString => EmptyString
  | String c t =>
      if bool_decide (c = cr) then
        match t with
        | EmptyString => EmptyString
        | String c' t' =>
            if bool_decide (c' = nl) then String nl (normalize_newlines t')
            else String c (normalize_newlines t)
        end
      else String c (normalize_newlines t)
  end.

Definition is_nl (c : ascii) : bool := bool_decide (c = nl).

(** Where [readRecord] stands in the input. *)
Inductive csv_state : Type :=
| RecordStart                   (* at the start of a line, no field read *)
| FieldStart                    (* just after a comma *)
| Unquoted (field : string)     (* inside a field that began without a quote *)
| Quoted (field : string)       (* inside a quoted field *)
| QuoteSeen (field : string).   (* inside a quoted field, just after a quote *)

(** [csv.NewReader] leaves [FieldsPerRecord] at 0, for which the package
    says: Read sets it to the number of fields in the first record, so
    that future records must have the same field count.  A record of
    another length is answered with [ErrFieldCount], and [ReadAll] gives
    up at the first error.  [expected] is [None] until the first record
    is complete. *)
Definition check_fields (expected : option nat) (record : list string) : option nat :=
  match expected with
  | None => Some (length record)
  | Some n => if bool_decide (length record = n) then Some n else None
  end.

(** A record is complete: its length is checked, and it is put in
    front of the records that [continue] reads from the rest of the
    input ([None] at the end of the input). *)
Definition finish_record (expected : option nat) (record : list string)
    (continue : option (nat -> Result (list (list string))))
    : Result (list (list string)) :=
  match check_fields expected record with
  | None => Fail (CsvError ErrFieldCount)
  | Some n =>
      match continue with
      | None => Ok [record]
      | Some k =>
          match k n with
          | Ok records => Ok (record :: records)
          | Fail err => Fail err
          end
      end
  end.

(** [csv.Reader.ReadAll] with the settings of [csv.NewReader] (comma
    separated, no comment character, strict quotes), on input whose line
    ends are already normalized.  [record] holds the fields of the
    current record read so far. *)
Fixpoint csv_scan (expected : option nat) (st : csv_state) (record : list string)
    (input : string) : Result (list (list string)) :=
  match input with
  | EmptyString =>
      match st with
      | RecordStart => Ok []
      | FieldStart => finish_record expected (record ++ [EmptyString]) None
      | Unquoted f => finish_record expected (record ++ [f]) None
      | Quoted _ => Fail (CsvError ErrQuote)
      | QuoteSeen f => finish_record expected (record ++ [f]) None
      end
  | String c t =>
      let next_record := Some (fun n => csv_scan (Some n) RecordStart [] t) in
      match st with
      | RecordStart =>
          if bool_decide (c = nl) then csv_scan expected RecordStart [] t
          else if bool_decide (c = quote) then csv_scan expected (Quoted EmptyString) record t
          else if bool_decide (c = comma) then
            csv_scan expected FieldStart (record ++ [EmptyString]) t
          else csv_scan expected (Unquoted (String c EmptyString)) record t
      | FieldStart =>
          if bool_decide (c = nl) then
            finish_record expected (record ++ [EmptyString]) next_record
          else if bool_decide (c = quote) then csv_scan expected (Quoted EmptyString) record t
          else if bool_decide (c = comma) then
            csv_scan expected FieldStart (record ++ [EmptyString]) t
          else csv_scan expected (Unquoted (String c EmptyString)) record t
      | Unquoted f =>
          if bool_decide (c = nl) then finish_record expected (record ++ [f]) next_record
          else if bool_decide (c = quote) then Fail (CsvError ErrBareQuote)
          else if bool_decide (c = comma) then csv_scan expected FieldStart (record ++ [f]) t
          else csv_scan expected (Unquoted (f +:+ String c EmptyString)) record t
      | Quoted f =>
          if bool_decide (c = quote) then csv_scan expected (QuoteSeen f) record t
          else csv_scan expected (Quoted (f +:+ String c EmptyString)) record t
      | QuoteSeen f =>
          if bool_decide (c = quote) then
            csv_scan expected (Quoted (f +:+ String quote EmptyString)) record t
          else if bool_decide (c = comma) then csv_scan expected FieldStart (record ++ [f]) t
          else if bool_decide (c = nl) then finish_record expected (record ++ [f]) next_record
          else Fail (CsvError ErrQuote)
      end
  end.

Definition csv_ReadAll (file : string) : Result (list (list string)) :=
  csv_scan None RecordStart [] (normalize_newlines file).

(** The body of the inner loop of [ExtractFromCSV]:
    [for j, header := range headers { if j < len(row) { record[header] = row[j] } }] *)
Fixpoint fill_record (j : nat) (headers row : list string) (record : DataRecord)
    : DataRecord :=
  match headers with
  | [] => record
  | header :: rest =>
      fill_record (S j) rest row
        match row !! j with
        | Some cell => <[header := VString cell]> record
        | None => record
        end
  end.

Section Extract.

(** [os.Open] followed by reading the whole file. *)
Variable os_Open : string -> Result string.

Definition ExtractFromCSV (filePath : string) : Result (list DataRecord) :=
  match os_Open filePath with
  | Fail err => Fail err
  | Ok file =>
      match csv_ReadAll file with
      | Fail err => Fail err
      | Ok records =>
          match records with
          | [] => Fail (Errorf "no data found in CSV file")
          | headers :: rows =>
              Ok (map (fun row => fill_record 0 headers row ∅) rows)
          end
      end
  end.

End Extract.

(** A file system with a single file. *)
Definition one_file (name content : string) (filePath : string) : Result string :=
  if bool_decide (filePath = name) then Ok content
  else Fail (External "open: no such file or directory").

(** ** The transformer *)

(** [fmt.Sprintf("%v", v)] for a string [v] *)
Definition Sprintf_v (v : string) : string := v.

Definition Transform (data : list DataRecord) : list DataRecord :=
  map (fmap (M := gmap string)
         (fun value => match value with
                       | VString v => VString (Sprintf_v v)
                       | _ => value
                       end)) data.

(** ** The two stores *)

(** What the service asks of MinIO and PostgreSQL, in the order asked. *)
Inductive Event : Type :=
| PutObject (bucketName objectName payload : string)
| Exec (query : string) (args : list Value)
| Query (query : string) (args : list Value).

(** The stores answer a call knowing the calls made before it. [None] is
    Go's [nil] error. A catalog query answers with rows, each of which
    [rows.Scan] reads into a column name and a data type, or fails on. *)
Record MinioClient : Type := {
  PutObject_reply : list Event -> string -> string -> string -> option error
}.

Record DB : Type := {
  Exec_reply : list Event -> string -> list Value -> option error;
  Query_reply : list Event -> string -> list Value
                -> Result (list (Result (string * string)))
}.

Record ETLService : Type := {
  minioClient : MinioClient;
  db : DB;
  minioBucket : string
}.

(** [NewETLService], once both clients are connected. *)
Definition NewETLService (client : MinioClient) (conn : DB) : ETLService :=
  {| minioClient := client; db := conn; minioBucket := "raw" |}.

(** Methods of the service read and extend the trace of calls. *)
Definition M (A : Type) : Type := list Event -> A * list Event.

Definition ret {A : Type} (a : A) : M A := fun trace => (a, trace).

Definition bind {A B : Type} (m : M A) (k : A -> M B) : M B :=
  fun trace => let '(a, trace') := m trace in k a trace'.

Notation "'let*' x ':=' m 'in' k" := (bind m (fun x => k))
  (at level 10, x name, m at level 100, k at level 200).

Definition is_PutObject (ev : Event) : bool :=
  match ev with PutObject _ _ _ => true | _ => false end.

(** ** The column classifier's result *)

Record ColumnAnalysisResult : Type := {
  TableName : string;
  Dimensions : gmap string string;
  Facts : list string;
  Relationships : list string
}.

Definition tab : ascii := "009"%char.
Definition query_line (text : string) : string :=
  String tab (String tab text) +:+ String nl EmptyString.

(** The raw string literal of [AnalyzeColumnsWithLLM]. *)
Definition columns_query : string :=
  String nl EmptyString
  +:+ query_line "SELECT column_name, data_type"
  +:+ query_line "FROM information_schema.columns"
  +:+ query_line "WHERE table_name = $1"
  +:+ query_line "ORDER BY ordinal_position"
  +:+ String tab EmptyString.

(** The loop over [rows.Next()] with [rows.Scan]. *)
Fixpoint scan_columns (rows : list (Result (string * string)))
    (columns : list (string * string)) : Result (list (string * string)) :=
  match rows with
  | [] => Ok columns
  | Ok col :: rest => scan_columns rest (columns ++ [col])
  | Fail err :: _ => Fail err
  end.

Section Service.

Variable unicode_ToLower : Z -> Z.
(** [json.Marshal] on a batch of records. *)
Variable json_Marshal : list DataRecord -> Result string.
(** [ExtractFromFile]: format detection and the extractor it selects. *)
Variable ExtractFromFile : string -> Result (list DataRecord).
Variable filepath_Base : string -> string.

Variable e : ETLService.

Definition db_Exec (query : string) (args : list Value) : M (option error) :=
  fun trace => (Exec_reply (db e) trace query args, trace ++ [Exec query args]).

Definition db_Query (query : string) (args : list Value)
    : M (Result (list (Result (string * string)))) :=
  fun trace => (Query_reply (db e) trace query args, trace ++ [Query query args]).

Definition minio_PutObject (bucketName objectName payload : string)
    : M (option error) :=
  fun trace => (PutObject_reply (minioClient e) trace bucketName objectName payload,
                trace ++ [PutObject bucketName objectName payload]).

Definition LoadToMinIO (data : list DataRecord) (fileName : string)
    : M (option error) :=
  match json_Marshal data with
  | Fail err => ret (Some err)
  | Ok jsonData =>
      let objectName := "raw/" +:+ fileName in
      minio_PutObject (minioBucket e) objectName jsonData
  end.

(** [columnValues[key] = append(columnValues[key], value)] for every
    entry of one record. *)
Definition collect_record (columnValues : gmap string (list Value))
    (record : DataRecord) : gmap string (list Value) :=
  fold_left
    (fun acc '(key, value) => <[key := default [] (acc !! key) ++ [value]]> acc)
    (map_to_list record) columnValues.

Definition column_def (col : string * list Value) : string :=
  let '(colName, values) := col in
  let colType := InferColumnType unicode_ToLower values in
  let safeColName := SanitizeColumnName unicode_ToLower colName in
  String quote EmptyString +:+ safeColName +:+ String quote EmptyString
    +:+ " " +:+ colType.

(** The order in which Go walks a map is not fixed; [map_to_list]
    stands for one such order. *)
Definition CreateTableIfNotExists (tableName : string) (data : list DataRecord)
    : M (option error) :=
  if bool_decide (length data = 0%nat) then ret None
  else
    let tableName := SanitizeTableName unicode_ToLower tableName in
    let sampleSize := if bool_decide (100 < length data)%nat then 100%nat
                      else length data in
    let columnValues := fold_left collect_record (take sampleSize data) ∅ in
    let columnsDef := map column_def (map_to_list columnValues) in
    let query := "CREATE TABLE IF NOT EXISTS " +:+ tableName +:+ " ("
                   +:+ strings_Join columnsDef ", "
                   +:+ ", id SERIAL PRIMARY KEY)" in
    let* err := db_Exec query [] in
    match err with
    | Some err => ret (Some (Wrap ("failed to create table " +:+ tableName +:+ ": ") err))
    | None => ret None
    end.

Definition is_dimension_name (colLower : string) : bool :=
  strings_Contains colLower "name"
  || strings_Contains colLower "desc"
  || strings_Contains colLower "category"
  || strings_Contains colLower "type"
  || strings_Contains colLower "date".

Definition is_fact_name (colLower : string) : bool :=
  strings_Contains colLower "amount"
  || strings_Contains colLower "price"
  || strings_Contains colLower "quantity"
  || strings_Contains colLower "count"
  || strings_Contains colLower "total".

(** One turn of the loop over the columns of the catalog. *)
Definition classify (result : ColumnAnalysisResult) (col : string * string)
    : ColumnAnalysisResult :=
  let colLower := strings_ToLower unicode_ToLower col.1 in
  if is_dimension_name colLower then
    {| TableName := TableName result;
       Dimensions := <[col.1 := "dimension"]> (Dimensions result);
       Facts := Facts result;
       Relationships := Relationships result |}
  else if is_fact_name colLower then
    {| TableName := TableName result;
       Dimensions := Dimensions result;
       Facts := Facts result ++ [col.1];
       Relationships := Relationships result |}
  else result.

Definition AnalyzeColumnsWithLLM (tableName : string)
    : M (Result ColumnAnalysisResult) :=
  let* rows := db_Query columns_query [VString tableName] in
  match rows with
  | Fail err => ret (Fail (Wrap "failed to get table structure: " err))
  | Ok rows =>
      match scan_columns rows [] with
      | Fail err => ret (Fail err)
      | Ok columns =>
          let result := {| TableName := tableName; Dimensions := ∅;
                           Facts := []; Relationships := [] |} in
          ret (Ok (fold_left classify columns result))
      end
  end.

Definition CreateStarSchemaViews (tableName : string) : M (option error) :=
  let* analysis := AnalyzeColumnsWithLLM tableName in
  match analysis with
  | Fail err => ret (Some (Wrap "failed to analyze columns with LLM: " err))
  | Ok analysis =>
      let viewName := tableName +:+ "_star_view" in
      let query := "SELECT * FROM " +:+ tableName in
      let createViewQuery := "CREATE OR REPLACE VIEW " +:+ viewName +:+ " AS " +:+ query in
      let* err := db_Exec createViewQuery [] in
      match err with
      | Some err => ret (Some (Wrap "failed to create star schema view: " err))
      | None => ret None
      end
  end.

(** The loop over the records of a load: an insert that fails is
    logged and the loop goes on. *)
Fixpoint insert_records (insertQuery : string) (originalColumnNames : list string)
    (data : list DataRecord) : M unit :=
  match data with
  | [] => ret tt
  | record :: rest =>
      let values := map (fun colName => default VNil (record !! colName))
                        originalColumnNames in
      let* _err := db_Exec insertQuery values in
      insert_records insertQuery originalColumnNames rest
  end.

(** [fmt.Sprintf("auto_table_%d", len(data))] *)
Definition auto_table_name (data : list DataRecord) : string :=
  "auto_table_" +:+ pretty (length data).

Definition LoadToPostgreSQL (data : list DataRecord) : M (option error) :=
  match data with
  | [] => ret None
  | first :: _ =>
      let tableName := auto_table_name data in
      let* err := CreateTableIfNotExists tableName data in
      match err with
      | Some err => ret (Some (Wrap "failed to create table: " err))
      | None =>
          let originalColumnNames := (map_to_list first).*1 in
          let sanitizedColumnNames :=
            map (SanitizeColumnName unicode_ToLower) originalColumnNames in
          let placeholders :=
            imap (fun i _ => "$" +:+ pretty (i + 1)%nat) sanitizedColumnNames in
          let insertQuery :=
            "INSERT INTO " +:+ tableName
              +:+ " (" +:+ strings_Join sanitizedColumnNames ", "
              +:+ ") VALUES (" +:+ strings_Join placeholders ", " +:+ ")" in
          let* _ := insert_records insertQuery originalColumnNames data in
          let* _err := CreateStarSchemaViews tableName in
          ret None
      end
  end.

(** [Transform] rewrites the records in place, so the batch handed to
    [LoadToMinIO] under the name [data] is the transformed one. *)
Definition ProcessETLFromFile (filePath : string) : M (option error) :=
  match ExtractFromFile filePath with
  | Fail err => ret (Some (Wrap "extract failed: " err))
  | Ok data =>
      let transformedData := Transform data in
      let data := transformedData in
      let fileName := "raw_" +:+ filepath_Base filePath in
      let* err := LoadToMinIO data fileName in
      match err with
      | Some err => ret (Some (Wrap "load to MinIO failed: " err))
      | None =>
          let* err := LoadToPostgreSQL transformedData in
          match err with
          | Some err => ret (Some (Wrap "load to PostgreSQL failed: " err))
          | None => ret None
          end
      end
  end.

End Service.

(** ** Small worlds to run the service in *)

Definition reliable_minio : MinioClient :=
  {| PutObject_reply := fun _ _ _ _ => None |}.

Definition failing_minio : MinioClient :=
  {| PutObject_reply := fun _ _ _ _ => Some (External "connection refused") |}.

(** A database whose catalog lists [columns] for every table and which
    carries out every statement. *)
Definition reliable_db (columns : list (string * string)) : DB :=
  {| Exec_reply := fun _ _ _ => None;
     Query_reply := fun _ _ _ => Ok (map Ok columns) |}.

(** The same, but refusing every statement that begins with [refused]. *)
Definition refusing_db (refused : string) (columns : list (string * string)) : DB :=
  {| Exec_reply := fun _ query _ =>
       if strings_HasPrefix query refused
       then Some (External "permission denied") else None;
     Query_reply := fun _ _ _ => Ok (map Ok columns) |}.

Definition customer (id name : string) : DataRecord :=
  <["customer_id" := VString id]> (<["customer_name" := VString name]> ∅).

Definition customers_csv : string :=
  "customer_id,customer_name" +:+ String nl EmptyString
  +:+ "1,John" +:+ String nl EmptyString
  +:+ "2,Jane" +:+ String nl EmptyString.

(** [json.Marshal] and [filepath.Base] stand-ins for running the model. *)
Definition marshal_ok (data : list DataRecord) : Result string := Ok "[...]".
Definition base_id (filePath : string) : string := filePath.

(** ** The statements of a load, by name *)

(** The key list [LoadToPostgreSQL] reads off [data[0]]. *)
Definition first_record_columns (data : list DataRecord) : list string :=
  match data with
  | [] => []
  | first :: _ => (map_to_list first).*1
  end.

(** The text of [insertQuery]. *)
Definition insert_statement (unicode_ToLower : Z -> Z) (data : list DataRecord)
    : string :=
  let sanitizedColumnNames :=
    map (SanitizeColumnName unicode_ToLower) (first_record_columns data) in
  "INSERT INTO " +:+ auto_table_name data
    +:+ " (" +:+ strings_Join sanitizedColumnNames ", "
    +:+ ") VALUES ("
    +:+ strings_Join (imap (fun i _ => "$" +:+ pretty (i + 1)%nat) sanitizedColumnNames) ", "
    +:+ ")".

(** The values bound for one record: [values[i] = record[colName]]. *)
Definition insert_values (columns : list string) (record : DataRecord) : list Value :=
  map (fun colName => default VNil (record !! colName)) columns.

(** The text of [query] in [CreateTableIfNotExists], for the name as the
    caller gives it. *)
Definition create_statement (unicode_ToLower : Z -> Z) (tableName : string)
    (data : list DataRecord) : string :=
  let sampleSize := if bool_decide (100 < length data)%nat then 100%nat
                    else length data in
  "CREATE TABLE IF NOT EXISTS " +:+ SanitizeTableName unicode_ToLower tableName
    +:+ " ("
    +:+ strings_Join
          (map (column_def unicode_ToLower)
               (map_to_list (fold_left collect_record (take sampleSize data) ∅))) ", "
    +:+ ", id SERIAL PRIMARY KEY)".

(** The text of [createViewQuery]. *)
Definition view_statement (tableName : string) : string :=
  "CREATE OR REPLACE VIEW " +:+ (tableName +:+ "_star_view")
    +:+ " AS " +:+ ("SELECT * FROM " +:+ tableName).

(** The two tests [InferColumnType] makes on a non-number, with the
    date test as the code writes it (on the lower-cased text). *)
Definition sets_hasDate (unicode_ToLower : Z -> Z) (v : Value) : bool :=
  match v with
  | VString s => looks_like_date unicode_ToLower s
  | _ => false
  end.

Definition sets_hasString (unicode_ToLower : Z -> Z) (v : Value) : bool :=
  match v with
  | VString s => negb (looks_like_date unicode_ToLower s)
  | VBool _ | VOther _ => true
  | _ => false
  end.

(** ** Format detection *)

Inductive FileFormat : Type :=
| Unknown | CSV | JSON | XLSX | XLS | DUMP | TAR | TARGZ | SQL.

(** The scan of [filepath.Ext] from the end of the path: [None] while
    neither a dot nor a separator has been met, [Some (Some ext)] when
    the last of them is a dot, [Some None] when it is a separator. *)
Fixpoint ext_scan (path : string) : option (option string) :=
  match path with
  | EmptyString => None
  | String c t =>
      match ext_scan t with
      | Some found => Some found
      | None =>
          if bool_decide (c = "."%char) then Some (Some path)
          else if bool_decide (c = "/"%char) then Some None
          else None
      end
  end.

(** [filepath.Ext] where the separator is the slash. *)
Definition filepath_Ext (path : string) : string :=
  match ext_scan path with
  | Some (Some ext) => ext
  | _ => EmptyString
  end.

(** [strings.HasSuffix] *)
Definition strings_HasSuffix (s suffix : string) : bool :=
  bool_decide (String.length suffix <= String.length s)%nat
  && bool_decide (substring (String.length s - String.length suffix)
                            (String.length suffix) s = suffix).

(** [len(data) >= 4 && data[0] == 0x50 && data[1] == 0x4B] *)
Definition isXLSX (data : string) : bool :=
  if len data <? 4 then false
  else match data with
       | String d0 (String d1 _) => (byte d0 =? 80) && (byte d1 =? 75)
       | _ => false
       end.

(** [len(data) >= 8] and the four bytes D0 CF 11 E0 *)
Definition isXLS (data : string) : bool :=
  if len data <? 8 then false
  else match data with
       | String d0 (String d1 (String d2 (String d3 _))) =>
           (byte d0 =? 208) && (byte d1 =? 207) && (byte d2 =? 17) && (byte d3 =? 224)
       | _ => false
       end.

Section Format.

Variable unicode_ToLower : Z -> Z.
Variable os_Open : string -> Result string.
(** [isJSON] asks [json.Unmarshal]; [isSQL] trims white space as Unicode
    defines it before it looks for the four keywords. *)
Variable isJSON : string -> bool.
Variable isSQL : string -> bool.
(** The extractors built on the JSON and spreadsheet libraries. *)
Variable ExtractFromJSON : string -> Result (list DataRecord).
Variable ExtractFromXLSX : string -> Result (list DataRecord).
Variable ExtractFromXLS : string -> Result (list DataRecord).

(** The first 512 bytes of the file decide, in this order. *)
Definition identifyFormatByContent (filePath : string) : FileFormat :=
  match os_Open filePath with
  | Fail _ => Unknown
  | Ok content =>
      let buffer := take_bytes 512 content in
      if isJSON buffer then JSON
      else if isXLSX buffer then XLSX
      else if isXLS buffer then XLS
      else if isSQL buffer then SQL
      else Unknown
  end.

Definition GetFileFormat (filePath : string) : FileFormat :=
  let ext := strings_ToLower unicode_ToLower (filepath_Ext filePath) in
  if bool_decide (ext = ".csv") then CSV
  else if bool_decide (ext = ".json") then JSON
  else if bool_decide (ext = ".xlsx") then XLSX
  else if bool_decide (ext = ".xls") then XLS
  else if bool_decide (ext = ".dump") then DUMP
  else if bool_decide (ext = ".tar") then TAR
  else if bool_decide (ext = ".gz") then
    if strings_HasSuffix (strings_ToLower unicode_ToLower filePath) ".tar.gz"
    then TARGZ else DUMP
  else if bool_decide (ext = ".sql") then SQL
  else identifyFormatByContent filePath.

(** The loop over the lines of the dump changes nothing, whether a line
    starts an [INSERT INTO] or not: [data] stays [nil]. *)
Definition ExtractFromDump (filePath : string) : Result (list DataRecord) :=
  match os_Open filePath with
  | Fail err => Fail err
  | Ok _ => Ok []
  end.

Definition ExtractFromFile (filePath : string) : Result (list DataRecord) :=
  match GetFileFormat filePath with
  | CSV => ExtractFromCSV os_Open filePath
  | JSON => ExtractFromJSON filePath
  | XLSX => ExtractFromXLSX filePath
  | XLS => ExtractFromXLS filePath
  | DUMP | SQL => ExtractFromDump filePath
  | _ => Fail (Errorf ("unsupported file format: " +:+ filePath))
  end.

End Format.

(** A byte that is neither a dot nor a slash. *)
Definition name_byte (c : ascii) : bool :=
  negb (bool_decide (c = "."%char)) && negb (bool_decide (c = "/"%char)).

(** The formats the switch of [GetFileFormat] tells from the extension
    alone (without its dot, in lower case). *)
Definition extension_table : list (string * FileFormat) :=
  [("csv", CSV); ("json", JSON); ("xlsx", XLSX); ("xls", XLS);
   ("dump", DUMP); ("tar", TAR); ("sql", SQL)].

(** ** The e-mail configuration *)

Record Recipient : Type := {
  Name : string;
  Email : string;
  Department : string;
  ReportTypes : list string
}.

Record SMTPConfig : Type := {
  Host : string;
  Port : Z;
  Username : string;
  Password : string;
  From : string;
  Encryption : string
}.

Record ReportConfig : Type := {
  Enabled : bool;
  Schedule : string;
  Subject : string;
  Template : string
}.

Record EmailSettings : Type := {
  Timezone : string;
  RetryAttempts : Z;
  TimeoutSeconds : Z;
  EnableLogging : bool;
  Attachments : list string
}.

Record EmailConfig : Type := {
  Recipients : list Recipient;
  SMTP : SMTPConfig;
  Reports : gmap string ReportConfig;
  Settings : EmailSettings
}.

(** The inner loop of [GetRecipientsByReportType]: the recipient is
    appended at the first report type that matches, and the loop is
    left. *)
Fixpoint append_if_subscribed (reportType : string) (recipient : Recipient)
    (types : list string) (recipients : list Recipient) : list Recipient :=
  match types with
  | [] => recipients
  | rt :: rest =>
      if bool_decide (rt = reportType) then recipients ++ [recipient]
      else append_if_subscribed reportType recipient rest recipients
  end.

Definition GetRecipientsByReportType (ec : EmailConfig) (reportType : string)
    : list Recipient :=
  fold_left
    (fun recipients recipient =>
       append_if_subscribed reportType recipient (ReportTypes recipient) recipients)
    (Recipients ec) [].

Section Validate.

(** [ValidateEmail]: whether the address matches the pattern. *)
Variable ValidateEmail : string -> bool.

(** One turn of the loop over the recipients. *)
Definition validate_recipient (errors : list string) (i : nat) (recipient : Recipient)
    : list string :=
  let errors :=
    if bool_decide (Name recipient = EmptyString)
    then errors ++ ["recipient " +:+ pretty i +:+ " has empty name"]
    else errors in
  let errors :=
    if bool_decide (Email recipient = EmptyString)
    then errors ++ ["recipient " +:+ pretty i +:+ " has empty email"]
    else if negb (ValidateEmail (Email recipient))
    then errors ++ ["recipient " +:+ pretty i +:+ " has invalid email format: "
                      +:+ Email recipient]
    else errors in
  if bool_decide (length (ReportTypes recipient) = 0%nat)
  then errors ++ ["recipient " +:+ pretty i +:+ " has no report types"]
  else errors.

Fixpoint validate_recipients (errors : list string) (i : nat)
    (recipients : list Recipient) : list string :=
  match recipients with
  | [] => errors
  | recipient :: rest =>
      validate_recipients (validate_recipient errors i recipient) (S i) rest
  end.

Definition ValidateConfig (ec : EmailConfig) : list string :=
  let errors := validate_recipients [] 0 (Recipients ec) in
  let errors := if bool_decide (Host (SMTP ec) = EmptyString)
                then errors ++ ["SMTP host is empty"] else errors in
  let errors := if bool_decide (Port (SMTP ec) = 0)
                then errors ++ ["SMTP port is invalid"] else errors in
  let errors := if bool_decide (Username (SMTP ec) = EmptyString)
                then errors ++ ["SMTP username is empty"] else errors in
  let errors := if bool_decide (From (SMTP ec) = EmptyString)
                then errors ++ ["SMTP from address is empty"] else errors in
  if bool_decide (size (Reports ec) = 0%nat)
  then errors ++ ["no reports configured"] else errors.

(** What [ValidateConfig] asks of a recipient. *)
Definition recipient_ok (recipient : Recipient) : Prop :=
  Name recipient <> EmptyString
  /\ Email recipient <> EmptyString
  /\ ValidateEmail (Email recipient) = true
  /\ ReportTypes recipient <> [].

End Validate.

(** ** Runs over a query *)

(** What the database answers to the query of a run: the column names
    ([rows.Columns]) and, row after row, the values [rows.Scan] reads
    into [values], or the error it fails with.  A successful scan fills
    all [len(columns)] destinations, so each list of values is as long
    as the list of columns. *)
Record Rows : Type := {
  rows_Columns : Result (list string);
  rows_Scan : list (Result (list Value))
}.

(** [for i, col := range columns { record[col] = values[i] }] *)
Fixpoint row_record (i : nat) (columns : list string) (values : list Value)
    (record : DataRecord) : DataRecord :=
  match columns with
  | [] => record
  | col :: rest =>
      row_record (S i) rest values (<[col := default VNil (values !! i)]> record)
  end.

(** The loop over [rows.Next()]. *)
Fixpoint scan_records (columns : list string) (scans : list (Result (list Value)))
    (data : list DataRecord) : Result (list DataRecord) :=
  match scans with
  | [] => Ok data
  | Fail err :: _ => Fail err
  | Ok values :: rest => scan_records columns rest (data ++ [row_record 0 columns values ∅])
  end.

Section QueryRun.

Variable unicode_ToLower : Z -> Z.
Variable json_Marshal : list DataRecord -> Result string.
(** The answer of [e.db.Query(query)], given the calls made before. *)
Variable Rows_reply : list Event -> string -> Result Rows.
Variable e : ETLService.

Definition ExtractFromSQL (query : string) : M (Result (list DataRecord)) :=
  fun trace =>
    (match Rows_reply trace query with
     | Fail err => Fail err
     | Ok rows =>
         match rows_Columns rows with
         | Fail err => Fail err
         | Ok columns => scan_records columns (rows_Scan rows) []
         end
     end,
     trace ++ [Query query []]).

(** As in [ProcessETLFromFile], [data] names the batch [Transform] has
    rewritten in place. *)
Definition ProcessETLFromSQL (query : string) : M (option error) :=
  let* extracted := ExtractFromSQL query in
  match extracted with
  | Fail err => ret (Some (Wrap "extract from SQL failed: " err))
  | Ok data =>
      let transformedData := Transform data in
      let data := transformedData in
      let fileName := "raw_sql_" +:+ query in
      let* err := LoadToMinIO json_Marshal e data fileName in
      match err with
      | Some err => ret (Some (Wrap "load to MinIO failed: " err))
      | None =>
          let* err := LoadToPostgreSQL unicode_ToLower e transformedData in
          match err with
          | Some err => ret (Some (Wrap "load to PostgreSQL failed: " err))
          | None => ret None
          end
      end
  end.

End QueryRun.

(** The extensions the switch of [GetFileFormat] has a case for. *)
Definition known_extensions : list string :=
  [".csv"; ".json"; ".xlsx"; ".xls"; ".dump"; ".tar"; ".gz"; ".sql"].

(** ** The calls of a load, by the table they name *)

(** The calls of a load of [data] on the table [name]: none for an
    empty batch; otherwise the [CREATE TABLE] and, unless the database
    refuses it, one [INSERT] per record, the query of the column catalog
    and, when the catalog could be read, the view: every one of them
    names [name]. *)
Definition load_calls_on (name : string) (data : list DataRecord)
    (calls : list Event) : Prop :=
  match data with
  | [] => calls = []
  | _ :: _ =>
      exists (columnsDef columns placeholders : string)
             (values : DataRecord -> list Value),
        let create :=
          Exec ("CREATE TABLE IF NOT EXISTS " +:+ name +:+ " (" +:+ columnsDef
                  +:+ ", id SERIAL PRIMARY KEY)") [] in
        let insert record :=
          Exec ("INSERT INTO " +:+ name +:+ " (" +:+ columns
                  +:+ ") VALUES (" +:+ placeholders +:+ ")") (values record) in
        let catalog := Query columns_query [VString name] in
        let view := Exec (view_statement name) [] in
        calls = [create]
        \/ calls = create :: map insert data ++ [catalog]
        \/ calls = create :: map insert data ++ [catalog; view]
  end.

(** * Properties *)

(** ** Bytes and runes *)

Lemma byte_range c : 0 <= byte c < 256.
Proof.
  unfold byte. pose proof (N_ascii_bounded c). lia.
Qed.

Lemma chr_byte c : chr (byte c) = c.
Proof.
  unfold chr, byte. pose proof (N_ascii_bounded c).
  rewrite Z.mod_small by lia. rewrite N2Z.id. apply ascii_N_embedding.
Qed.

Lemma byte_chr z : 0 <= z < 256 -> byte (chr z) = z.
Proof.
  intros Hz. unfold chr, byte. rewrite Z.mod_small by lia.
  rewrite N_ascii_embedding by lia. lia.
Qed.

Ltac byte_consts :=
  change (byte "a") with 97 in *; change (byte "z") with 122 in *;
  change (byte "A") with 65 in *; change (byte "Z") with 90 in *;
  change (byte "0") with 48 in *; change (byte "9") with 57 in *;
  change (byte "2") with 50 in *;
  change (byte "_") with 95 in *; change utf8.RuneSelf with 128 in *.

Ltac zbool :=
  repeat match goal with
    | H : _ && _ = true |- _ => apply andb_true_iff in H; destruct H
    | H : _ || _ = false |- _ => apply orb_false_iff in H; destruct H
    | H : negb _ = true |- _ => apply negb_true_iff in H
    | H : negb _ = false |- _ => apply negb_false_iff in H
    | H : (_ <=? _) = true |- _ => apply Z.leb_le in H
    | H : (_ <=? _) = false |- _ => apply Z.leb_gt in H
    | H : (_ <? _) = true |- _ => apply Z.ltb_lt in H
    | H : (_ <? _) = false |- _ => apply Z.ltb_ge in H
    | H : (_ =? _) = true |- _ => apply Z.eqb_eq in H
    | H : (_ =? _) = false |- _ => apply Z.eqb_neq in H
    end.

Lemma leb_true a b : a <= b -> (a <=? b) = true.
Proof. apply Z.leb_le. Qed.

Lemma leb_false a b : b < a -> (a <=? b) = false.
Proof. apply Z.leb_gt. Qed.

Lemma ltb_true a b : a < b -> (a <? b) = true.
Proof. apply Z.ltb_lt. Qed.

Lemma ltb_false a b : b <= a -> (a <? b) = false.
Proof. apply Z.ltb_ge. Qed.

Lemma eqb_false a b : a <> b -> (a =? b) = false.
Proof. apply Z.eqb_neq. Qed.

(** Decide a closed boolean combination of integer comparisons from the
    linear facts in the context. *)
Ltac zdecide :=
  repeat first
    [ rewrite leb_true by lia | rewrite leb_false by lia
    | rewrite ltb_true by lia | rewrite ltb_false by lia
    | rewrite Z.eqb_refl | rewrite eqb_false by lia ];
  cbn [andb orb negb]; try reflexivity.

Lemma ident_byte_bounds c :
  ident_byte c = true ->
  (97 <= byte c <= 122) \/ (48 <= byte c <= 57) \/ byte c = 95.
Proof.
  unfold ident_byte, is_lower, is_digit, is_underscore. byte_consts.
  intros H. apply orb_true_iff in H as [H|H]; [apply orb_true_iff in H as [H|H]|];
    zbool; lia.
Qed.

Lemma sanitize_rune_ident r :
  0 <= sanitize_rune r <= 127 /\ ident_byte (chr (sanitize_rune r)) = true.
Proof.
  unfold sanitize_rune. byte_consts.
  destruct (((97 <=? r) && (r <=? 122)) || ((48 <=? r) && (r <=? 57)) || (r =? 95))
    eqn:E.
  - assert (Hr : (97 <= r <= 122) \/ (48 <= r <= 57) \/ r = 95).
    { apply orb_true_iff in E as [E|E]; [apply orb_true_iff in E as [E|E]|];
        zbool; lia. }
    split; [lia|].
    unfold ident_byte, is_lower, is_digit, is_underscore. byte_consts.
    rewrite byte_chr by lia. exact E.
  - split; [lia|]. reflexivity.
Qed.

Lemma sanitize_rune_fix c :
  ident_byte c = true -> sanitize_rune (byte c) = byte c.
Proof.
  intros H. unfold sanitize_rune.
  unfold ident_byte, is_lower, is_digit, is_underscore in H.
  now rewrite H.
Qed.

Lemma EncodeRune_ascii r :
  0 <= r <= 127 -> utf8.EncodeRune r = String (chr r) EmptyString.
Proof.
  intros Hr. unfold utf8.EncodeRune. now zdecide.
Qed.

Lemma DecodeRune_ascii c t :
  byte c < 128 -> utf8.DecodeRuneInString (String c t) = (byte c, 1%nat).
Proof.
  intros Hc. unfold utf8.DecodeRuneInString. byte_consts. now zdecide.
Qed.

Lemma all_bytes_app p s1 s2 :
  all_bytes p (s1 +:+ s2) = all_bytes p s1 && all_bytes p s2.
Proof.
  induction s1 as [|c s1 IH]; [reflexivity|].
  change (String c s1 +:+ s2) with (String c (s1 +:+ s2)).
  cbn [all_bytes]. rewrite IH. now rewrite andb_assoc.
Qed.

Lemma all_bytes_impl (p q : ascii -> bool) s :
  (forall c, p c = true -> q c = true) ->
  all_bytes p s = true -> all_bytes q s = true.
Proof.
  intros Hpq. induction s as [|c s IH]; [reflexivity|].
  cbn [all_bytes]. intros H. apply andb_true_iff in H as [H1 H2].
  rewrite (Hpq _ H1), (IH H2). reflexivity.
Qed.

Lemma all_bytes_take p n s :
  all_bytes p s = true -> all_bytes p (take_bytes n s) = true.
Proof.
  revert s. induction n as [|n IH]; intros [|c s]; try reflexivity.
  cbn [all_bytes take_bytes]. intros H. apply andb_true_iff in H as [H1 H2].
  now rewrite H1, (IH _ H2).
Qed.

Lemma length_take n s :
  (String.length (take_bytes n s) <= n)%nat.
Proof.
  revert s. induction n as [|n IH]; intros [|c s]; cbn; try lia.
  specialize (IH s). lia.
Qed.

(** ** Sanitization *)

(** Whatever [mapping] the string went through before, what
    [strings.Map] writes with the sanitizing function is made of
    identifier bytes only. *)
Lemma Map_sanitize_ident s :
  forall skip, all_bytes ident_byte (Map_from sanitize_rune skip s) = true.
Proof.
  induction s as [|c s IH]; intros skip; [reflexivity|].
  cbn [Map_from]. destruct skip as [|k]; [|apply IH].
  destruct (utf8.DecodeRuneInString (String c s)) as [r width].
  destruct (sanitize_rune_ident r) as [Hr Hid].
  rewrite leb_true by lia. rewrite EncodeRune_ascii by exact Hr.
  rewrite all_bytes_app. cbn [all_bytes]. now rewrite Hid, IH.
Qed.

Lemma ident_isASCII s : all_bytes ident_byte s = true -> isASCII s = true.
Proof.
  apply all_bytes_impl. intros c Hc.
  apply ident_byte_bounds in Hc. apply Z.ltb_lt. byte_consts. lia.
Qed.

Lemma ident_lower_fix s :
  all_bytes ident_byte s = true -> map_bytes lower_byte s = s.
Proof.
  induction s as [|c s IH]; [reflexivity|].
  cbn [all_bytes map_bytes]. intros H. apply andb_true_iff in H as [Hc Hs].
  rewrite (IH Hs). f_equal.
  apply ident_byte_bounds in Hc. unfold lower_byte. byte_consts.
  destruct ((65 <=? byte c) && (byte c <=? 90)) eqn:E; [zbool; lia|reflexivity].
Qed.

Lemma ident_Map_fix s :
  all_bytes ident_byte s = true -> strings_Map sanitize_rune s = s.
Proof.
  unfold strings_Map. induction s as [|c s IH]; [reflexivity|].
  cbn [all_bytes]. intros H. apply andb_true_iff in H as [Hc Hs].
  cbn [Map_from].
  rewrite DecodeRune_ascii by (apply ident_byte_bounds in Hc; lia).
  rewrite (sanitize_rune_fix _ Hc).
  pose proof (byte_range c).
  rewrite leb_true by lia.
  rewrite EncodeRune_ascii by (apply ident_byte_bounds in Hc; lia).
  rewrite chr_byte. cbn [Nat.pred]. rewrite (IH Hs). reflexivity.
Qed.

Lemma truncate63_clean s :
  all_bytes ident_byte s = true -> needs_prefix s = false ->
  clean (truncate63 s) = true.
Proof.
  intros Hid Hpre. unfold clean, truncate63.
  destruct (63 <? len s) eqn:E.
  - rewrite all_bytes_take by exact Hid.
    assert (Hp : needs_prefix (take_bytes 63 s) = false).
    { destruct s as [|c s]; [reflexivity|exact Hpre]. }
    rewrite Hp. cbn [negb andb]. apply Z.leb_le. unfold len.
    pose proof (length_take 63 s). lia.
  - rewrite Hid, Hpre. cbn [negb andb]. zbool. now apply Z.leb_le.
Qed.

Lemma clean_truncate63 s : clean s = true -> truncate63 s = s.
Proof.
  unfold clean, truncate63. intros H. zbool. now rewrite ltb_false by lia.
Qed.

Section SanitizeFacts.

Variable unicode_ToLower : Z -> Z.

Lemma sanitize_with_clean marker s :
  all_bytes ident_byte marker = true -> needs_prefix marker = false ->
  marker <> EmptyString ->
  clean (sanitize_with unicode_ToLower marker s) = true.
Proof.
  intros Hm Hp Hne. unfold sanitize_with.
  set (x := strings_Map sanitize_rune (strings_ToLower unicode_ToLower s)).
  assert (Hx : all_bytes ident_byte x = true) by apply Map_sanitize_ident.
  destruct (needs_prefix x) eqn:E.
  - apply truncate63_clean.
    + now rewrite all_bytes_app, Hm, Hx.
    + destruct marker as [|m marker]; [contradiction|exact Hp].
  - now apply truncate63_clean.
Qed.

Lemma sanitize_with_fix marker s :
  clean s = true -> sanitize_with unicode_ToLower marker s = s.
Proof.
  intros H. unfold sanitize_with.
  assert (Hid : all_bytes ident_byte s = true /\ needs_prefix s = false).
  { unfold clean in H. zbool. auto. }
  destruct Hid as [Hid Hp].
  unfold strings_ToLower. rewrite (ident_isASCII _ Hid), (ident_lower_fix _ Hid).
  rewrite (ident_Map_fix _ Hid), Hp. now apply clean_truncate63.
Qed.

End SanitizeFacts.

Lemma clean_matches s :
  clean s = true -> s <> EmptyString -> matches_identifier s = true.
Proof.
  intros H Hne. destruct s as [|c s]; [contradiction|].
  unfold clean in H. cbn [all_bytes needs_prefix] in H.
  apply andb_true_iff in H as [H Hlen].
  apply andb_true_iff in H as [H Hpre].
  apply andb_true_iff in H as [Hc Hs].
  apply negb_true_iff, orb_false_iff in Hpre as [Hd Hu].
  unfold matches_identifier. rewrite Hs, Hu.
  unfold ident_byte in Hc. rewrite Hd, Hu in Hc.
  rewrite !orb_false_r in *. rewrite Hc. cbn [andb].
  apply Z.leb_le. apply Z.leb_le in Hlen.
  unfold len in *. cbn [String.length] in Hlen. lia.
Qed.

Lemma DecodeRune_nonneg s : 0 <= fst (utf8.DecodeRuneInString s).
Proof.
  assert (Hland : forall a m, 0 <= m -> 0 <= Z.land a m).
  { intros a m Hm. apply Z.land_nonneg. now right. }
  unfold utf8.DecodeRuneInString.
  repeat match goal with
    | |- context [match ?x with _ => _ end] => destruct x
    end;
    cbn [fst]; try (pose proof (byte_range a); lia); try (unfold utf8.RuneError; lia);
    repeat (apply Z.lor_nonneg; split);
    try apply Z.shiftl_nonneg; apply Hland; lia.
Qed.

Lemma EncodeRune_nonempty r : utf8.EncodeRune r <> EmptyString.
Proof.
  unfold utf8.EncodeRune, utf8.enc3.
  repeat match goal with
    | |- context [if ?b then _ else _] => destruct b
    end; discriminate.
Qed.

Lemma app_nonempty_l s1 s2 : s1 <> EmptyString -> s1 +:+ s2 <> EmptyString.
Proof. destruct s1; [contradiction|discriminate]. Qed.

Lemma Map_nonempty mapping s :
  (forall r, 0 <= r -> 0 <= mapping r) ->
  s <> EmptyString -> strings_Map mapping s <> EmptyString.
Proof.
  intros Hm Hs. destruct s as [|c t]; [contradiction|].
  unfold strings_Map. cbn [Map_from].
  pose proof (DecodeRune_nonneg (String c t)) as Hd.
  destruct (utf8.DecodeRuneInString (String c t)) as [r width]. cbn [fst] in Hd.
  rewrite leb_true by auto. apply app_nonempty_l, EncodeRune_nonempty.
Qed.

Lemma sanitize_rune_nonneg r : 0 <= r -> 0 <= sanitize_rune r.
Proof. intros _. apply sanitize_rune_ident. Qed.

Lemma truncate63_nonempty s : s <> EmptyString -> truncate63 s <> EmptyString.
Proof.
  unfold truncate63. destruct s as [|c s]; [contradiction|].
  intros _. destruct (63 <? len (String c s)); discriminate.
Qed.

Section SanitizeNonEmpty.

Variable unicode_ToLower : Z -> Z.
Hypothesis ToLower_nonneg : forall r, 0 <= r -> 0 <= unicode_ToLower r.

Lemma ToLower_nonempty s :
  s <> EmptyString -> strings_ToLower unicode_ToLower s <> EmptyString.
Proof.
  intros Hs. unfold strings_ToLower. destruct (isASCII s).
  - destruct s; [contradiction|discriminate].
  - now apply Map_nonempty.
Qed.

Lemma sanitize_with_nonempty marker s :
  s <> EmptyString -> sanitize_with unicode_ToLower marker s <> EmptyString.
Proof.
  intros Hs. unfold sanitize_with. apply truncate63_nonempty.
  assert (Hx : strings_Map sanitize_rune (strings_ToLower unicode_ToLower s)
               <> EmptyString).
  { apply Map_nonempty; [apply sanitize_rune_nonneg|now apply ToLower_nonempty]. }
  destruct (needs_prefix _); [|exact Hx].
  destruct marker; [exact Hx|discriminate].
Qed.

End SanitizeNonEmpty.

(** C3, as amended: both sanitizers are idempotent on every string, and
    on every non-empty string their result matches
    [^[a-z_][a-z0-9_]{0,62}$]; the lower-casing table is any function
    that, like Go's, has no negative result on a rune. *)
Theorem sanitize_idempotent_identifier
    (unicode_ToLower : Z -> Z)
    (ToLower_nonneg : forall r, 0 <= r -> 0 <= unicode_ToLower r)
    (s : string) :
  SanitizeTableName unicode_ToLower (SanitizeTableName unicode_ToLower s)
    = SanitizeTableName unicode_ToLower s
  /\ SanitizeColumnName unicode_ToLower (SanitizeColumnName unicode_ToLower s)
    = SanitizeColumnName unicode_ToLower s
  /\ (s <> EmptyString ->
      matches_identifier (SanitizeTableName unicode_ToLower s) = true
      /\ matches_identifier (SanitizeColumnName unicode_ToLower s) = true).
Proof.
  change (SanitizeTableName unicode_ToLower) with (sanitize_with unicode_ToLower "t_").
  change (SanitizeColumnName unicode_ToLower) with (sanitize_with unicode_ToLower "c_").
  assert (Ht : clean (sanitize_with unicode_ToLower "t_" s) = true)
    by (apply sanitize_with_clean; [reflexivity|reflexivity|discriminate]).
  assert (Hc : clean (sanitize_with unicode_ToLower "c_" s) = true)
    by (apply sanitize_with_clean; [reflexivity|reflexivity|discriminate]).
  split; [now apply sanitize_with_fix|].
  split; [now apply sanitize_with_fix|].
  intros Hs. split; apply clean_matches; auto using sanitize_with_nonempty.
Qed.

Lemma simple_ToLower_nonneg r : 0 <= r -> 0 <= simple_ToLower r.
Proof.
  intros Hr. unfold simple_ToLower. byte_consts.
  change (byte "k") with 107. change (byte "i") with 105.
  repeat match goal with
    | |- context [if ?b then _ else _] => destruct b
    end; lia.
Qed.

Lemma sanitize_idempotent_identifier_witness :
  SanitizeTableName simple_ToLower "9 Orders" = "t_9_orders"
  /\ matches_identifier (SanitizeTableName simple_ToLower "9 Orders") = true.
Proof.
  split; [reflexivity|].
  apply (sanitize_idempotent_identifier simple_ToLower simple_ToLower_nonneg
           "9 Orders").
  discriminate.
Defined.

(** C3 as stated fails on the empty string: it is sanitized to itself,
    and the empty string does not match the expression. *)
Lemma sanitize_empty_not_identifier :
  SanitizeTableName simple_ToLower "" = ""
  /\ SanitizeColumnName simple_ToLower "" = ""
  /\ matches_identifier (SanitizeTableName simple_ToLower "") = false
  /\ matches_identifier (SanitizeColumnName simple_ToLower "") = false.
Proof. repeat split. Qed.

(** ** The warehouse path *)

Section ServiceFacts.

Variable unicode_ToLower : Z -> Z.
Variable e : ETLService.

Local Abbreviation CreateTable := (CreateTableIfNotExists unicode_ToLower e).
Local Abbreviation Analyze := (AnalyzeColumnsWithLLM unicode_ToLower e).
Local Abbreviation CreateViews := (CreateStarSchemaViews unicode_ToLower e).
Local Abbreviation Load := (LoadToPostgreSQL unicode_ToLower e).

(** Every method only adds calls to the trace. *)
Lemma db_Exec_extends query args trace :
  snd (db_Exec e query args trace) = trace ++ [Exec query args].
Proof. reflexivity. Qed.

Lemma CreateTable_extends tableName data trace :
  exists calls, snd (CreateTable tableName data trace) = trace ++ calls.
Proof.
  unfold CreateTableIfNotExists. case_bool_decide.
  - exists []. cbn. now rewrite app_nil_r.
  - unfold bind. cbn.
    destruct (Exec_reply _ _ _ _); cbn; eauto.
Qed.

Lemma Analyze_extends tableName trace :
  snd (Analyze tableName trace)
  = trace ++ [Query columns_query [VString tableName]].
Proof.
  unfold AnalyzeColumnsWithLLM, bind. cbn.
  destruct (Query_reply _ _ _ _) as [rows|err]; [|reflexivity].
  destruct (scan_columns rows []); reflexivity.
Qed.

Lemma CreateViews_extends tableName trace :
  exists calls, snd (CreateViews tableName trace) = trace ++ calls.
Proof.
  unfold CreateStarSchemaViews, bind.
  pose proof (Analyze_extends tableName trace) as Ha.
  destruct (Analyze tableName trace) as [[analysis|err] trace']; cbn in Ha; subst.
  - cbn. destruct (Exec_reply _ _ _ _); cbn; rewrite <- app_assoc; eauto.
  - cbn. eauto.
Qed.

Lemma insert_records_extends insertQuery names data :
  forall trace,
    exists calls, snd (insert_records e insertQuery names data trace) = trace ++ calls.
Proof.
  induction data as [|record rest IH]; intros trace.
  - exists []. cbn. now rewrite app_nil_r.
  - cbn [insert_records]. unfold bind. cbn.
    destruct (IH (trace ++ [Exec insertQuery
                  (map (fun colName => default VNil (record !! colName)) names)]))
      as [calls Hc].
    rewrite Hc, <- app_assoc. eauto.
Qed.

(** The outcome of a load is that of table creation: nothing that
    happens afterwards, a failing insert or a failing view, reaches
    the caller. *)
Lemma Load_outcome data trace :
  fst (Load data trace)
  = match fst (CreateTable (auto_table_name data) data trace) with
    | Some err => Some (Wrap "failed to create table: " err)
    | None => None
    end.
Proof.
  destruct data as [|first rest].
  - reflexivity.
  - unfold LoadToPostgreSQL, bind.
    destruct (CreateTable _ _ trace) as [[err|] trace1]; cbn [fst]; [reflexivity|].
    destruct (insert_records _ _ _ _ trace1) as [[] trace2].
    destruct (CreateViews _ trace2) as [result trace3]. reflexivity.
Qed.

Lemma Load_extends data trace :
  exists calls, snd (Load data trace) = trace ++ calls.
Proof.
  destruct data as [|first rest].
  - exists []. cbn. now rewrite app_nil_r.
  - unfold LoadToPostgreSQL, bind.
    destruct (CreateTable_extends (auto_table_name (first :: rest)) (first :: rest) trace)
      as [c1 H1].
    destruct (CreateTable _ _ trace) as [[err|] trace1]; cbn [snd] in H1; subst trace1.
    + cbn. eauto.
    + match goal with
      | |- context [insert_records e ?q ?n ?d ?t] =>
          destruct (insert_records_extends q n d t) as [c2 H2];
          destruct (insert_records e q n d t) as [[] trace2]
      end.
      cbn [snd] in H2. subst trace2.
      match goal with
      | |- context [CreateViews ?n ?t] =>
          destruct (CreateViews_extends n t) as [c3 H3];
          destruct (CreateViews n t) as [result trace3]
      end.
      cbn [snd] in H3. subst trace3. cbn [snd].
      rewrite <- !app_assoc. eauto.
Qed.

End ServiceFacts.

Lemma Analyze_result unicode_ToLower e t trace rows columns :
  Query_reply (db e) trace columns_query [VString t] = Ok rows ->
  scan_columns rows [] = Ok columns ->
  fst (AnalyzeColumnsWithLLM unicode_ToLower e t trace)
  = Ok (fold_left (classify unicode_ToLower) columns
          {| TableName := t; Dimensions := ∅; Facts := []; Relationships := [] |}).
Proof.
  intros Hq Hs. unfold AnalyzeColumnsWithLLM, bind, db_Query.
  cbn. rewrite Hq. cbn. now rewrite Hs.
Qed.

(** C10: an empty batch is loaded by doing nothing: table creation and
    the load both return [nil] and leave the trace of calls as it was,
    so no table, row or view is created. *)
Theorem empty_batch_is_noop
    (unicode_ToLower : Z -> Z) (e : ETLService) (tableName : string)
    (trace : list Event) :
  CreateTableIfNotExists unicode_ToLower e tableName [] trace = (None, trace)
  /\ LoadToPostgreSQL unicode_ToLower e [] trace = (None, trace).
Proof. split; reflexivity. Qed.

(** C7: whenever the catalog of the table can be read, whatever columns
    it lists and however they are classified, the synthesizer's one
    statement is [CREATE OR REPLACE VIEW t_star_view AS SELECT * FROM t]. *)
Theorem view_is_full_projection
    (unicode_ToLower : Z -> Z) (e : ETLService) (t : string)
    (trace : list Event) (rows : list (Result (string * string)))
    (columns : list (string * string)) :
  Query_reply (db e) trace columns_query [VString t] = Ok rows ->
  scan_columns rows [] = Ok columns ->
  fst (AnalyzeColumnsWithLLM unicode_ToLower e t trace)
    = Ok (fold_left (classify unicode_ToLower) columns
            {| TableName := t; Dimensions := ∅; Facts := []; Relationships := [] |})
  /\ snd (CreateStarSchemaViews unicode_ToLower e t trace)
    = trace ++ [Query columns_query [VString t];
                Exec ("CREATE OR REPLACE VIEW " +:+ (t +:+ "_star_view")
                        +:+ " AS " +:+ ("SELECT * FROM " +:+ t)) []].
Proof.
  intros Hq Hs.
  unfold CreateStarSchemaViews, AnalyzeColumnsWithLLM, bind, db_Query, db_Exec.
  cbn. rewrite Hq. cbn. rewrite Hs. cbn. split; [reflexivity|].
  destruct (Exec_reply _ _ _ _); cbn; now rewrite <- app_assoc.
Qed.

Lemma view_is_full_projection_witness :
  snd (CreateStarSchemaViews simple_ToLower
         (NewETLService reliable_minio (reliable_db [("total_amount", "numeric")]))
         "sales" [])
  = [Query columns_query [VString "sales"];
     Exec "CREATE OR REPLACE VIEW sales_star_view AS SELECT * FROM sales" []].
Proof.
  apply (view_is_full_projection simple_ToLower
           (NewETLService reliable_minio (reliable_db [("total_amount", "numeric")]))
           "sales" [] [Ok ("total_amount", "numeric")] [("total_amount", "numeric")]);
    reflexivity.
Defined.

(** C5 as stated fails: with a database that refuses to create views, a
    load of one record creates the table, inserts the row, is refused
    the view, and still returns [nil]. *)
Lemma view_failure_is_not_fatal :
  let e := NewETLService reliable_minio
             (refusing_db "CREATE OR REPLACE VIEW" [("customer_name", "text")]) in
  fst (CreateStarSchemaViews simple_ToLower e "auto_table_1" [])
    = Some (Wrap "failed to create star schema view: " (External "permission denied"))
  /\ LoadToPostgreSQL simple_ToLower e [customer "1" "John"] []
    = (None,
       [Exec ("CREATE TABLE IF NOT EXISTS auto_table_1 ("
                +:+ String quote "customer_id" +:+ String quote " TEXT, "
                +:+ String quote "customer_name" +:+ String quote " TEXT"
                +:+ ", id SERIAL PRIMARY KEY)") [];
        Exec "INSERT INTO auto_table_1 (customer_id, customer_name) VALUES ($1, $2)"
             [VString "1"; VString "John"];
        Query columns_query [VString "auto_table_1"];
        Exec "CREATE OR REPLACE VIEW auto_table_1_star_view AS SELECT * FROM auto_table_1" []]).
Proof. split; vm_compute; reflexivity. Qed.

Lemma scan_columns_all_ok columns :
  forall acc, scan_columns (map Ok columns) acc = Ok (acc ++ columns).
Proof.
  induction columns as [|c cs IH]; intros acc; cbn.
  - now rewrite app_nil_r.
  - rewrite IH, <- app_assoc. reflexivity.
Qed.

(** C5, as amended: a failure to create the view does not fail the
    load.  A load fails exactly when table creation fails, and then with
    that error wrapped; once the table is there, the load ends by running
    the view synthesizer and returns [nil] whatever the synthesizer
    returned. *)
Theorem load_fails_only_on_table_creation
    (unicode_ToLower : Z -> Z) (e : ETLService) (data : list DataRecord)
    (trace : list Event) :
  data <> [] ->
  fst (LoadToPostgreSQL unicode_ToLower e data trace)
  = match fst (CreateTableIfNotExists unicode_ToLower e (auto_table_name data)
                 data trace) with
    | Some err => Some (Wrap "failed to create table: " err)
    | None => None
    end
  /\ (fst (CreateTableIfNotExists unicode_ToLower e (auto_table_name data) data trace)
      = None ->
      exists trace' view_outcome,
        CreateStarSchemaViews unicode_ToLower e (auto_table_name data) trace'
        = (view_outcome, snd (LoadToPostgreSQL unicode_ToLower e data trace))
        /\ fst (LoadToPostgreSQL unicode_ToLower e data trace) = None).
Proof.
  intros Hne. split; [apply Load_outcome|].
  destruct data as [|first rest]; [contradiction|].
  unfold LoadToPostgreSQL, bind.
  destruct (CreateTableIfNotExists _ _ _ _ trace) as [[err|] trace1]; cbn [fst];
    [discriminate|]. intros _.
  destruct (insert_records _ _ _ _ trace1) as [[] trace2].
  exists trace2.
  destruct (CreateStarSchemaViews _ _ _ trace2) as [result trace3].
  exists result. split; reflexivity.
Qed.

Lemma load_fails_only_on_table_creation_witness :
  let e := NewETLService reliable_minio
             (refusing_db "CREATE OR REPLACE VIEW" [("customer_name", "text")]) in
  fst (LoadToPostgreSQL simple_ToLower e [customer "1" "John"] []) = None
  /\ exists trace',
      fst (CreateStarSchemaViews simple_ToLower e "auto_table_1" trace')
      = Some (Wrap "failed to create star schema view: " (External "permission denied")).
Proof.
  cbn zeta.
  destruct (load_fails_only_on_table_creation simple_ToLower
              (NewETLService reliable_minio
                 (refusing_db "CREATE OR REPLACE VIEW" [("customer_name", "text")]))
              [customer "1" "John"] []) as [Hout Hview]; [discriminate|].
  split; [exact Hout|].
  destruct (Hview eq_refl) as [trace' [outcome [Hrun _]]].
  exists trace'. change (auto_table_name [customer "1" "John"]) with "auto_table_1" in Hrun.
  rewrite Hrun. cbn [fst].
  unfold CreateStarSchemaViews, AnalyzeColumnsWithLLM, bind, db_Query, db_Exec in Hrun.
  cbn in Hrun. injection Hrun as <- _. reflexivity.
Defined.

(** ** The two sinks *)

Lemma LoadToMinIO_calls json_Marshal e data fileName trace :
  exists puts,
    snd (LoadToMinIO json_Marshal e data fileName trace) = trace ++ puts
    /\ forallb is_PutObject puts = true.
Proof.
  unfold LoadToMinIO. destruct (json_Marshal data) as [jsonData|err].
  - eexists. split; reflexivity.
  - exists []. cbn. now rewrite app_nil_r.
Qed.

(** C1 as stated fails: when MinIO refuses the object, the run ends with
    that error after the one call to MinIO; no statement reaches the
    warehouse. *)
Lemma archive_failure_stops_the_run :
  ProcessETLFromFile simple_ToLower marshal_ok
    (ExtractFromCSV (one_file "customers.csv" customers_csv)) base_id
    (NewETLService failing_minio (reliable_db [])) "customers.csv" []
  = (Some (Wrap "load to MinIO failed: " (External "connection refused")),
     [PutObject "raw" "raw/raw_customers.csv" "[...]"]).
Proof. vm_compute. reflexivity. Qed.

(** C1, as amended: the archive write comes first.  If it fails, the run
    stops with that error and nothing is asked of the warehouse.  If it
    succeeds, the warehouse load is run next, and whatever its outcome
    the calls made for the archive stay in the trace: no failure of the
    load takes the archived object back. *)
Theorem archive_before_warehouse
    (unicode_ToLower : Z -> Z)
    (json_Marshal : list DataRecord -> Result string)
    (ExtractFromFile : string -> Result (list DataRecord))
    (filepath_Base : string -> string)
    (e : ETLService) (filePath : string) (data : list DataRecord)
    (trace : list Event) :
  ExtractFromFile filePath = Ok data ->
  exists puts,
    let archive :=
      LoadToMinIO json_Marshal e (Transform data)
        ("raw_" +:+ filepath_Base filePath) trace in
    let run :=
      ProcessETLFromFile unicode_ToLower json_Marshal ExtractFromFile
        filepath_Base e filePath trace in
    snd archive = trace ++ puts
    /\ forallb is_PutObject puts = true
    /\ match fst archive with
       | Some err =>
           run = (Some (Wrap "load to MinIO failed: " err), trace ++ puts)
       | None =>
           let load := LoadToPostgreSQL unicode_ToLower e (Transform data)
                         (trace ++ puts) in
           exists calls,
             snd load = (trace ++ puts) ++ calls
             /\ run = (match fst load with
                       | Some err => Some (Wrap "load to PostgreSQL failed: " err)
                       | None => None
                       end, (trace ++ puts) ++ calls)
       end.
Proof.
  intros Hx.
  destruct (LoadToMinIO_calls json_Marshal e (Transform data)
              ("raw_" +:+ filepath_Base filePath) trace) as [puts [Hputs Hall]].
  exists puts. cbn zeta. split; [exact Hputs|]. split; [exact Hall|].
  unfold ProcessETLFromFile, bind. rewrite Hx.
  destruct (LoadToMinIO _ _ _ _ trace) as [[err|] trace1]; cbn [fst snd] in *;
    subst trace1; [reflexivity|].
  destruct (Load_extends unicode_ToLower e (Transform data) (trace ++ puts))
    as [calls Hcalls].
  exists calls. split; [exact Hcalls|].
  destruct (LoadToPostgreSQL _ _ _ _) as [[err|] trace2]; cbn [fst snd] in *;
    subst trace2; reflexivity.
Qed.

Lemma archive_before_warehouse_witness :
  exists puts calls,
    ProcessETLFromFile simple_ToLower marshal_ok
      (ExtractFromCSV (one_file "customers.csv" customers_csv)) base_id
      (NewETLService reliable_minio (refusing_db "CREATE TABLE" [])) "customers.csv" []
    = (Some (Wrap "load to PostgreSQL failed: "
               (Wrap "failed to create table: "
                  (Wrap "failed to create table auto_table_2: "
                     (External "permission denied")))),
       puts ++ calls)
    /\ puts = [PutObject "raw" "raw/raw_customers.csv" "[...]"].
Proof.
  destruct (archive_before_warehouse simple_ToLower marshal_ok
              (ExtractFromCSV (one_file "customers.csv" customers_csv)) base_id
              (NewETLService reliable_minio (refusing_db "CREATE TABLE" []))
              "customers.csv" [customer "1" "John"; customer "2" "Jane"] [])
    as [puts [Hputs [_ Hrun]]].
  { vm_compute. reflexivity. }
  vm_compute in Hputs. subst puts.
  cbn zeta in Hrun.
  change (fst (LoadToMinIO marshal_ok
                 (NewETLService reliable_minio (refusing_db "CREATE TABLE" []))
                 (Transform [customer "1" "John"; customer "2" "Jane"])
                 ("raw_" +:+ base_id "customers.csv") [])) with (@None error) in Hrun.
  cbv iota in Hrun. destruct Hrun as [calls [_ Hrun]].
  exists [PutObject "raw" "raw/raw_customers.csv" "[...]"], calls.
  split; [|reflexivity]. rewrite Hrun. f_equal.
Defined.

(** ** The destination table *)

Lemma auto_table_name_inj (d1 d2 : list DataRecord) :
  auto_table_name d1 = auto_table_name d2 -> length d1 = length d2.
Proof.
  unfold auto_table_name. intros H.
  apply (inj (String.app "auto_table_")) in H.
  now apply (inj pretty) in H.
Qed.

(** ** The column classifier *)

Section Classifier.

Variable unicode_ToLower : Z -> Z.

Local Abbreviation dim name :=
  (is_dimension_name (strings_ToLower unicode_ToLower name)).
Local Abbreviation fact name :=
  (is_fact_name (strings_ToLower unicode_ToLower name)).
Local Abbreviation classify_all := (fold_left (classify unicode_ToLower)).

Lemma classify_Facts columns :
  forall r0 name,
    In name (Facts (classify_all columns r0))
    <-> In name (Facts r0)
        \/ (In name (map fst columns) /\ dim name = false /\ fact name = true).
Proof.
  induction columns as [|c cs IH]; intros r0 name; cbn [fold_left map In].
  - tauto.
  - rewrite IH. unfold classify.
    destruct (dim c.1) eqn:Hd; [|destruct (fact c.1) eqn:Hf]; cbn [Facts].
    + split; [tauto|]. intros [H|[[H|H] [H1 H2]]]; try tauto.
      subst name. congruence.
    + rewrite in_app_iff. cbn [In]. split.
      * intros [[H|[H|[]]]|H]; try tauto. subst name. tauto.
      * intros [H|[[H|H] [H1 H2]]]; tauto.
    + split; [tauto|]. intros [H|[[H|H] [H1 H2]]]; try tauto.
      subst name. congruence.
Qed.

Lemma classify_Dimensions columns :
  forall r0 name,
    Dimensions (classify_all columns r0) !! name = Some "dimension"
    <-> Dimensions r0 !! name = Some "dimension"
        \/ (In name (map fst columns) /\ dim name = true).
Proof.
  induction columns as [|c cs IH]; intros r0 name; cbn [fold_left map In].
  - tauto.
  - rewrite IH. unfold classify.
    destruct (dim c.1) eqn:Hd; [|destruct (fact c.1) eqn:Hf]; cbn [Dimensions].
    + destruct (decide (c.1 = name)) as [Heq|Hne].
      * rewrite Heq in *. rewrite lookup_insert_eq. split.
        -- intros _. right. split; [left; reflexivity|exact Hd].
        -- intros _. left. reflexivity.
      * rewrite lookup_insert_ne by exact Hne. intuition congruence.
    + split; [tauto|]. intros [H|[[H|H] H1]]; try tauto.
      subst name. congruence.
    + split; [tauto|]. intros [H|[[H|H] H1]]; try tauto.
      subst name. congruence.
Qed.

End Classifier.

(** C9: the dimension keywords are tried first.  Of the columns the
    catalog lists, those whose lower-cased name contains a dimension
    keyword are the dimensions, and the facts are those that contain a
    fact keyword and no dimension keyword; [type_count], which contains
    one of each, is a dimension and not a fact. *)
Theorem dimension_precedes_fact
    (unicode_ToLower : Z -> Z) (e : ETLService) (t : string)
    (trace : list Event) (rows : list (Result (string * string)))
    (columns : list (string * string)) :
  Query_reply (db e) trace columns_query [VString t] = Ok rows ->
  scan_columns rows [] = Ok columns ->
  exists result,
    fst (AnalyzeColumnsWithLLM unicode_ToLower e t trace) = Ok result
    /\ (forall name,
          let colLower := strings_ToLower unicode_ToLower name in
          (Dimensions result !! name = Some "dimension"
             <-> In name (map fst columns) /\ is_dimension_name colLower = true)
          /\ (In name (Facts result)
             <-> In name (map fst columns)
                 /\ is_dimension_name colLower = false
                 /\ is_fact_name colLower = true))
    /\ is_dimension_name (strings_ToLower unicode_ToLower "type_count") = true
    /\ is_fact_name (strings_ToLower unicode_ToLower "type_count") = true
    /\ (In "type_count" (map fst columns) ->
        Dimensions result !! "type_count" = Some "dimension"
        /\ ~ In "type_count" (Facts result)).
Proof.
  intros Hq Hs.
  pose proof (Analyze_result unicode_ToLower e t trace rows columns Hq Hs) as Ha.
  eexists. split; [exact Ha|].
  assert (Hall : forall name,
             let colLower := strings_ToLower unicode_ToLower name in
             (Dimensions (fold_left (classify unicode_ToLower) columns
                 {| TableName := t; Dimensions := ∅; Facts := [];
                    Relationships := [] |}) !! name = Some "dimension"
              <-> In name (map fst columns) /\ is_dimension_name colLower = true)
             /\ (In name (Facts (fold_left (classify unicode_ToLower) columns
                 {| TableName := t; Dimensions := ∅; Facts := [];
                    Relationships := [] |}))
              <-> In name (map fst columns)
                  /\ is_dimension_name colLower = false
                  /\ is_fact_name colLower = true)).
  { intros name. cbn zeta. rewrite classify_Dimensions, classify_Facts.
    cbn [Dimensions Facts In]. rewrite lookup_empty. split; split; try tauto.
    intros [H|H]; [discriminate|tauto]. }
  split; [exact Hall|].
  split; [reflexivity|]. split; [reflexivity|].
  intros Hin. destruct (Hall "type_count") as [Hd Hf]. cbn zeta in Hd, Hf.
  split.
  - apply Hd. split; [exact Hin|reflexivity].
  - intros Hfact. apply Hf in Hfact as [_ [Hno _]]. discriminate Hno.
Qed.

Lemma dimension_precedes_fact_witness :
  exists result,
    fst (AnalyzeColumnsWithLLM simple_ToLower
           (NewETLService reliable_minio
              (reliable_db [("type_count", "integer"); ("total_amount", "numeric")]))
           "sales" []) = Ok result
    /\ Dimensions result !! "type_count" = Some "dimension"
    /\ ~ In "type_count" (Facts result).
Proof.
  destruct (dimension_precedes_fact simple_ToLower
              (NewETLService reliable_minio
                 (reliable_db [("type_count", "integer"); ("total_amount", "numeric")]))
              "sales" []
              [Ok ("type_count", "integer"); Ok ("total_amount", "numeric")]
              [("type_count", "integer"); ("total_amount", "numeric")]
              eq_refl eq_refl)
    as [result [Hr [_ [_ [_ Htc]]]]].
  exists result. split; [exact Hr|]. apply Htc. left. reflexivity.
Defined.

(** ** The delimited-text reader *)

Lemma finish_record_not_empty expected record continue :
  finish_record expected record continue <> Ok [].
Proof.
  unfold finish_record. destruct (check_fields expected record); [|discriminate].
  destruct continue as [k|]; [|discriminate].
  destruct (k n); discriminate.
Qed.

Ltac csv_step :=
  cbn [csv_scan]; cbv zeta; repeat case_bool_decide.

(** Outside the start of a line a record is under way, so the reader
    cannot come back with no record at all. *)
Lemma csv_scan_not_empty input :
  forall expected st record,
    st <> RecordStart -> csv_scan expected st record input <> Ok [].
Proof.
  induction input as [|c t IH]; intros expected st record Hst;
    destruct st; try contradiction; csv_step;
    try discriminate; try apply finish_record_not_empty;
    apply IH; discriminate.
Qed.

Lemma csv_scan_no_rows input :
  forall expected record,
    csv_scan expected RecordStart record input = Ok []
    <-> all_bytes is_nl input = true.
Proof.
  induction input as [|c t IH]; intros expected record.
  - cbn. tauto.
  - cbn [all_bytes]. unfold is_nl at 1. csv_step.
    + rewrite IH. cbn [andb]. tauto.
    + cbn [andb]. split; [|discriminate].
      intros Hscan. now apply csv_scan_not_empty in Hscan.
    + cbn [andb]. split; [|discriminate].
      intros Hscan. now apply csv_scan_not_empty in Hscan.
    + cbn [andb]. split; [|discriminate].
      intros Hscan. now apply csv_scan_not_empty in Hscan.
Qed.

(** The reader fails with errors of its own only. *)
Lemma csv_scan_error input :
  forall expected st record err,
    csv_scan expected st record input = Fail err -> exists e, err = CsvError e.
Proof.
  assert (Hfin : forall expected record continue err,
             (forall k n, continue = Some k -> k n = Fail err ->
                          exists e, err = CsvError e) ->
             finish_record expected record continue = Fail err ->
             exists e, err = CsvError e).
  { intros expected record continue err Hk. unfold finish_record.
    destruct (check_fields expected record) as [n|]; [|intros [= <-]; eauto].
    destruct continue as [k|]; [|discriminate].
    destruct (k n) eqn:Hkn; [discriminate|]. intros [= <-]. eauto. }
  induction input as [|c t IH]; intros expected st record err;
    destruct st; csv_step; intros Hscan;
    try discriminate; try (injection Hscan as <-; eauto; fail);
    try (eapply IH; exact Hscan);
    (eapply Hfin; [|exact Hscan]); intros k n Hk;
    (discriminate Hk || (injection Hk as <-; apply IH)).
Qed.

(** Every record the reader returns has as many fields as the first. *)
Lemma csv_scan_uniform input :
  forall expected st record rows,
    csv_scan expected st record input = Ok rows ->
    match expected, rows with
    | Some n, _ => Forall (fun row => length row = n) rows
    | None, [] => True
    | None, first :: rest => Forall (fun row => length row = length first) rest
    end.
Proof.
  assert (Hfin : forall expected record continue rows,
             (forall k n records, continue = Some k -> k n = Ok records ->
                                  Forall (fun row => length row = n) records) ->
             finish_record expected record continue = Ok rows ->
             match expected, rows with
             | Some n, _ => Forall (fun row => length row = n) rows
             | None, [] => True
             | None, first :: rest =>
                 Forall (fun row => length row = length first) rest
             end).
  { intros expected record continue rows Hk. unfold finish_record, check_fields.
    destruct expected as [n|].
    - case_bool_decide; [|discriminate].
      destruct continue as [k|].
      + destruct (k n) as [records|] eqn:Hkn; [|discriminate].
        intros [= <-]. constructor; [assumption|]. eapply Hk; eauto.
      + intros [= <-]. constructor; [assumption|constructor].
    - destruct continue as [k|].
      + destruct (k (length record)) as [records|] eqn:Hkn; [|discriminate].
        intros [= <-]. eapply Hk; eauto.
      + intros [= <-]. constructor. }
  induction input as [|c t IH]; intros expected st record rows;
    destruct st; csv_step; intros Hscan;
    try discriminate;
    try (injection Hscan as <-; destruct expected; constructor; fail);
    try (eapply IH; exact Hscan);
    (eapply Hfin; [|exact Hscan]); intros k n records Hk;
    (discriminate Hk || (injection Hk as <-; intros Hk; apply (IH _ _ _ _ Hk))).
Qed.

Lemma csv_ReadAll_uniform file headers rows :
  csv_ReadAll file = Ok (headers :: rows) ->
  Forall (fun row => length row = length headers) rows.
Proof.
  intros H. apply csv_scan_uniform in H. exact H.
Qed.

(** ** The delimited-text extractor *)

(** A header none of whose cells is present leaves the record alone. *)
Lemma fill_record_absent headers :
  forall j row (record : DataRecord) h,
    (forall i, headers !! i = Some h -> row !! (j + i)%nat = None) ->
    fill_record j headers row record !! h = record !! h.
Proof.
  induction headers as [|header rest IH]; intros j row record h Habs;
    cbn [fill_record]; [reflexivity|].
  rewrite IH.
  - destruct (row !! j) as [cell|] eqn:Hj; [|reflexivity].
    destruct (decide (header = h)) as [->|Hne].
    + specialize (Habs 0%nat eq_refl). rewrite Nat.add_0_r in Habs. congruence.
    + now rewrite lookup_insert_ne.
  - intros i Hi. specialize (Habs (S i) Hi).
    now rewrite Nat.add_succ_r in Habs.
Qed.

(** Header [i] is bound to cell [i]. *)
Lemma fill_record_positional headers :
  forall j row (record : DataRecord) i h cell,
    NoDup headers ->
    headers !! i = Some h -> row !! (j + i)%nat = Some cell ->
    fill_record j headers row record !! h = Some (VString cell).
Proof.
  induction headers as [|header rest IH]; intros j row record i h cell Hnd Hh Hc;
    [discriminate|].
  apply NoDup_cons in Hnd as [Hnotin Hnd]. cbn [fill_record].
  destruct i as [|i]; cbn in Hh.
  - injection Hh as ->. rewrite Nat.add_0_r in Hc. rewrite Hc.
    rewrite fill_record_absent; [apply lookup_insert_eq|].
    intros i Hi. exfalso. apply Hnotin. eapply list_elem_of_lookup_2, Hi.
  - eapply IH; [exact Hnd|exact Hh|]. now rewrite Nat.add_succ_l, <- Nat.add_succ_r.
Qed.

Lemma extract_rows os_Open filePath file headers rows :
  os_Open filePath = Ok file ->
  csv_ReadAll file = Ok (headers :: rows) ->
  ExtractFromCSV os_Open filePath
  = Ok (map (fun row => fill_record 0 headers row ∅) rows).
Proof.
  intros Hopen Hread. unfold ExtractFromCSV. now rewrite Hopen, Hread.
Qed.

(** C2 as stated fails: a file that holds a header row and nothing else
    is extracted to the empty sequence of records, without an error. *)
Lemma header_only_is_not_an_error :
  let file := "customer_id,customer_name" +:+ String nl EmptyString in
  csv_ReadAll file = Ok [["customer_id"; "customer_name"]]
  /\ ExtractFromCSV (one_file "header.csv" file) "header.csv" = Ok [].
Proof. split; reflexivity. Qed.

(** C2, as amended: the extractor answers "no data" exactly for a file
    without any row, that is, one that holds nothing but line ends; a
    file that holds a header row and no other row gives the empty
    sequence of records. *)
Theorem no_data_means_no_rows
    (os_Open : string -> Result string) (filePath file : string) :
  os_Open filePath = Ok file ->
  (ExtractFromCSV os_Open filePath = Fail (Errorf "no data found in CSV file")
   <-> all_bytes is_nl (normalize_newlines file) = true)
  /\ (forall headers,
        csv_ReadAll file = Ok [headers] -> ExtractFromCSV os_Open filePath = Ok []).
Proof.
  intros Hopen. split.
  - rewrite <- (csv_scan_no_rows (normalize_newlines file) None []).
    fold (csv_ReadAll file). unfold ExtractFromCSV. rewrite Hopen.
    destruct (csv_ReadAll file) as [[|headers rows]|err] eqn:Hread.
    + tauto.
    + split; discriminate.
    + apply csv_scan_error in Hread as [k ->]. split; discriminate.
  - intros headers Hread. unfold ExtractFromCSV. now rewrite Hopen, Hread.
Qed.

Lemma no_data_means_no_rows_witness :
  ExtractFromCSV (one_file "blank.csv" (String nl (String cr (String nl EmptyString))))
    "blank.csv"
  = Fail (Errorf "no data found in CSV file").
Proof.
  apply (no_data_means_no_rows
           (one_file "blank.csv" (String nl (String cr (String nl EmptyString))))
           "blank.csv" (String nl (String cr (String nl EmptyString))) eq_refl).
  reflexivity.
Defined.

(** C6 fails on the code for rows shorter than the header: the reader
    made by [csv.NewReader] holds every record to the number of fields
    of the first one, so the file [a,b / 1] is rejected as a whole
    instead of giving a record without the key [b].  The file of the
    specification's example is extracted as stated there. *)
Theorem short_row_is_rejected :
  ExtractFromCSV
    (one_file "short.csv" ("a,b" +:+ String nl ("1" +:+ String nl EmptyString)))
    "short.csv"
  = Fail (CsvError ErrFieldCount)
  /\ fill_record 0 ["a"; "b"] ["1"] ∅ = <["a" := VString "1"]> ∅
  /\ ExtractFromCSV (one_file "customers.csv" customers_csv) "customers.csv"
     = Ok [customer "1" "John"; customer "2" "Jane"].
Proof. repeat split; vm_compute; reflexivity. Qed.

(** ** Lower-casing does not touch the digits *)

Lemma lor_ge_l a b : 0 <= a -> 0 <= b -> a <= Z.lor a b.
Proof.
  intros Ha Hb.
  assert (E : Z.lor a b = Z.lor a (Z.ldiff b a)).
  { apply Z.bits_inj'. intros n Hn. rewrite !Z.lor_spec, Z.ldiff_spec.
    destruct (Z.testbit a n), (Z.testbit b n); reflexivity. }
  assert (D : Z.land a (Z.ldiff b a) = 0).
  { apply Z.bits_inj'. intros n Hn. rewrite Z.land_spec, Z.ldiff_spec, Z.bits_0.
    destruct (Z.testbit a n), (Z.testbit b n); reflexivity. }
  rewrite E, <- Z.lxor_lor, <- Z.add_nocarry_lxor by exact D.
  assert (0 <= Z.ldiff b a) by (apply Z.ldiff_nonneg; now left).
  lia.
Qed.

Lemma lor_ge_r a b : 0 <= a -> 0 <= b -> b <= Z.lor a b.
Proof. intros Ha Hb. rewrite Z.lor_comm. now apply lor_ge_l. Qed.

Lemma land_mask_nonneg a m : 0 <= m -> 0 <= Z.land a m.
Proof. intros Hm. apply Z.land_nonneg. now right. Qed.

Lemma land_31 a : Z.land a 31 = a mod 32.
Proof. change 31 with (Z.ones 5). now rewrite Z.land_ones. Qed.

Lemma land_15 a : Z.land a 15 = a mod 16.
Proof. change 15 with (Z.ones 4). now rewrite Z.land_ones. Qed.

Lemma land_7 a : Z.land a 7 = a mod 8.
Proof. change 7 with (Z.ones 3). now rewrite Z.land_ones. Qed.

Lemma land_63 a : Z.land a 63 = a mod 64.
Proof. change 63 with (Z.ones 6). now rewrite Z.land_ones. Qed.

Lemma byte_chr_mod z : byte (chr z) = z mod 256.
Proof.
  unfold chr, byte. pose proof (Z.mod_pos_bound z 256 eq_refl).
  rewrite N_ascii_embedding by lia. lia.
Qed.

Ltac zmod := Z.div_mod_to_equations; lia.

Lemma high_bit_byte z : Z.testbit z 7 = true -> 128 <= byte (chr z).
Proof.
  intros Hbit. rewrite byte_chr_mod.
  assert (Hlow : Z.testbit (z mod 2 ^ 8) 7 = true)
    by (rewrite Z.mod_pow2_bits_low by lia; exact Hbit).
  change (2 ^ 8) with 256 in Hlow.
  apply Z.testbit_true in Hlow; [|lia]. change (2 ^ 7) with 128 in Hlow.
  zmod.
Qed.

(** A rune outside ASCII is written with bytes outside ASCII. *)
Lemma EncodeRune_high r :
  128 <= r -> all_bytes is_high (utf8.EncodeRune r) = true.
Proof.
  intros Hr. unfold utf8.EncodeRune, utf8.enc3.
  rewrite (leb_false r 127) by lia. rewrite andb_false_r.
  assert (Hb : forall X y, Z.testbit X 7 = true -> is_high (chr (Z.lor X y)) = true).
  { intros X y HX. apply Z.leb_le, high_bit_byte.
    now rewrite Z.lor_spec, HX. }
  repeat match goal with
    | |- context [if ?b then _ else _] => destruct b
    end; cbn [all_bytes]; rewrite ?Hb by reflexivity; reflexivity.
Qed.

Lemma shiftl_mul x n : 0 <= n -> Z.shiftl x n = x * 2 ^ n.
Proof. intros Hn. now apply Z.shiftl_mul_pow2. Qed.

Lemma rune2_high s0 c1 :
  194 <= s0 <= 223 ->
  128 <= Z.lor (Z.shiftl (Z.land s0 31) 6) (Z.land c1 63).
Proof.
  intros Hs. rewrite land_31, land_63, shiftl_mul by lia. change (2 ^ 6) with 64.
  etransitivity; [|apply lor_ge_l]; zmod.
Qed.

Lemma rune3_high s0 c1 c2 :
  (s0 = 224 /\ 160 <= c1 <= 191) \/ 225 <= s0 <= 239 ->
  128 <= Z.lor (Z.lor (Z.shiftl (Z.land s0 15) 12) (Z.shiftl (Z.land c1 63) 6))
               (Z.land c2 63).
Proof.
  intros Hs. rewrite land_15, !land_63, !shiftl_mul by lia.
  change (2 ^ 6) with 64. change (2 ^ 12) with 4096.
  assert (H1 : 0 <= s0 mod 16 * 4096) by zmod.
  assert (H2 : 0 <= c1 mod 64 * 64) by zmod.
  assert (H3 : 0 <= c2 mod 64) by zmod.
  etransitivity; [|apply lor_ge_l; [apply Z.lor_nonneg; split; assumption|assumption]].
  destruct Hs as [[-> Hc]|Hs].
  - etransitivity; [|apply lor_ge_r; assumption]. zmod.
  - etransitivity; [|apply lor_ge_l; assumption]. zmod.
Qed.

Lemma rune4_high s0 c1 c2 c3 :
  (s0 = 240 /\ 144 <= c1 <= 191) \/ 241 <= s0 <= 244 ->
  128 <= Z.lor (Z.lor (Z.lor (Z.shiftl (Z.land s0 7) 18)
                             (Z.shiftl (Z.land c1 63) 12))
                      (Z.shiftl (Z.land c2 63) 6))
               (Z.land c3 63).
Proof.
  intros Hs. rewrite land_7, !land_63, !shiftl_mul by lia.
  change (2 ^ 6) with 64. change (2 ^ 12) with 4096. change (2 ^ 18) with 262144.
  assert (H1 : 0 <= s0 mod 8 * 262144) by zmod.
  assert (H2 : 0 <= c1 mod 64 * 4096) by zmod.
  assert (H3 : 0 <= c2 mod 64 * 64) by zmod.
  assert (H4 : 0 <= c3 mod 64) by zmod.
  assert (H12 : 0 <= Z.lor (s0 mod 8 * 262144) (c1 mod 64 * 4096))
    by (apply Z.lor_nonneg; split; assumption).
  etransitivity; [|apply lor_ge_l; [apply Z.lor_nonneg; split; assumption|assumption]].
  etransitivity; [|apply lor_ge_l; assumption].
  destruct Hs as [[-> Hc]|Hs].
  - etransitivity; [|apply lor_ge_r; assumption]. zmod.
  - etransitivity; [|apply lor_ge_l; assumption]. zmod.
Qed.

Lemma first_spec s0 sz lo hi :
  utf8.first s0 = Some (sz, lo, hi) ->
  128 <= lo /\ hi <= 191
  /\ ((sz = 2 /\ 194 <= s0 <= 223)
      \/ (sz = 3 /\ ((s0 = 224 /\ lo = 160) \/ 225 <= s0 <= 239))
      \/ (sz = 4 /\ ((s0 = 240 /\ lo = 144) \/ 241 <= s0 <= 244))).
Proof.
  unfold utf8.first.
  repeat match goal with
    | |- context [if ?b then _ else _] =>
        destruct b eqn:?; [intros [= <- <- <-]; zbool; lia|]
    end.
  discriminate.
Qed.

(** A sequence that does not start with an ASCII byte decodes to a rune
    outside ASCII, and the bytes it spans beyond the first are not ASCII
    either. *)
Lemma DecodeRune_high c t :
  128 <= byte c ->
  128 <= fst (utf8.DecodeRuneInString (String c t))
  /\ high_bytes (Nat.pred (snd (utf8.DecodeRuneInString (String c t)))) t.
Proof.
  intros Hc.
  assert (Herr : 128 <= fst (utf8.RuneError, 1%nat)
                 /\ high_bytes (Nat.pred (snd (utf8.RuneError, 1%nat))) t)
    by (cbn; unfold utf8.RuneError; lia).
  unfold utf8.DecodeRuneInString. byte_consts.
  rewrite ltb_false by lia.
  destruct (utf8.first (byte c)) as [[[sz lo] hi]|] eqn:Hfirst; [|exact Herr].
  apply first_spec in Hfirst as [Hlo [Hhi Hsz]].
  destruct t as [|c1 t1]; [exact Herr|].
  destruct (utf8.between lo hi c1) eqn:H1; cbn [negb]; [|exact Herr].
  unfold utf8.between in H1. apply andb_true_iff in H1 as [H1 H1'].
  apply Z.leb_le in H1. apply Z.leb_le in H1'.
  destruct (sz <=? 2) eqn:E2.
  { apply Z.leb_le in E2. cbn [fst snd Nat.pred high_bytes].
    split; [apply rune2_high; lia|lia]. }
  apply Z.leb_gt in E2.
  destruct t1 as [|c2 t2]; [exact Herr|].
  destruct (utf8.between 128 191 c2) eqn:H2; cbn [negb]; [|exact Herr].
  unfold utf8.between in H2. apply andb_true_iff in H2 as [H2 _].
  apply Z.leb_le in H2.
  pose proof (byte_range c1) as Hr1.
  destruct (sz <=? 3) eqn:E3.
  { apply Z.leb_le in E3. cbn [fst snd Nat.pred high_bytes].
    split; [apply rune3_high; lia|lia]. }
  apply Z.leb_gt in E3.
  destruct t2 as [|c3 t3]; [exact Herr|].
  destruct (utf8.between 128 191 c3) eqn:H3; cbn [negb]; [|exact Herr].
  unfold utf8.between in H3. apply andb_true_iff in H3 as [H3 _].
  apply Z.leb_le in H3.
  cbn [fst snd Nat.pred high_bytes].
  split; [apply rune4_high; lia|lia].
Qed.

Lemma byte_inj c d : byte c = byte d -> c = d.
Proof. intros H. rewrite <- (chr_byte c), <- (chr_byte d). now rewrite H. Qed.

Lemma byte_eqb c d : bool_decide (c = d) = (byte d =? byte c).
Proof.
  case_bool_decide as H.
  - subst. now rewrite Z.eqb_refl.
  - symmetry. apply Z.eqb_neq. intros E. apply H. symmetry. now apply byte_inj.
Qed.

Lemma scan20_true t :
  scan20 true t
  = match t with
    | EmptyString => false
    | String d _ => byte d =? 48
    end || scan20 false t.
Proof. destruct t as [|d u]; reflexivity. Qed.

(** [strings.Contains(s, "20")] is the one-pass search. *)
Lemma Contains_20 s : strings_Contains s "20" = scan20 false s.
Proof.
  induction s as [|c t IH]; [reflexivity|].
  cbn [strings_Contains strings_HasPrefix scan20]. rewrite IH.
  rewrite (byte_eqb "2" c). change (byte "2") with 50.
  cbn [andb orb].
  destruct (byte c =? 50) eqn:E; cbn [andb orb]; [|reflexivity].
  rewrite scan20_true. f_equal.
  destruct t as [|d u]; [reflexivity|]. cbn [strings_HasPrefix].
  rewrite (byte_eqb "0" d). change (byte "0") with 48.
  destruct u; cbn [strings_HasPrefix]; now rewrite andb_true_r.
Qed.

(** Bytes that are neither ['2'] nor ['0'] reset the search. *)
Lemma scan20_skip x :
  forall b rest,
    x <> EmptyString -> all_bytes not_2_or_0 x = true ->
    scan20 b (x +:+ rest) = scan20 false rest.
Proof.
  induction x as [|c x IH]; intros b rest Hne Hall; [contradiction|].
  change (String c x +:+ rest) with (String c (x +:+ rest)).
  cbn [all_bytes] in Hall. apply andb_true_iff in Hall as [Hc Hx].
  unfold not_2_or_0 in Hc. apply andb_true_iff in Hc as [H0 H2].
  apply negb_true_iff in H0, H2.
  cbn [scan20]. rewrite H0, H2, andb_false_r. cbn [orb].
  destruct x as [|c' x']; [reflexivity|]. apply IH; [discriminate|exact Hx].
Qed.

Lemma scan20_lower_bytes s :
  forall b, scan20 b (map_bytes lower_byte s) = scan20 b s.
Proof.
  induction s as [|c t IH]; intros b; [reflexivity|].
  cbn [map_bytes scan20]. rewrite IH.
  assert (H : (byte (lower_byte c) =? 48) = (byte c =? 48)
              /\ (byte (lower_byte c) =? 50) = (byte c =? 50)).
  { unfold lower_byte. byte_consts. pose proof (byte_range c).
    destruct ((65 <=? byte c) && (byte c <=? 90)) eqn:E; [|tauto].
    zbool. rewrite byte_chr by lia. split; now zdecide. }
  destruct H as [-> ->]. reflexivity.
Qed.

Section LowerDigits.

Variable unicode_ToLower : Z -> Z.
Hypothesis facts : ToLower_facts unicode_ToLower.

Lemma scan20_Map s :
  forall skip b,
    high_bytes skip s -> skip = 0%nat \/ b = false ->
    scan20 b (Map_from unicode_ToLower skip s) = scan20 b s.
Proof.
  induction s as [|c t IH]; intros skip b Hhigh Hb; [reflexivity|].
  cbn [Map_from]. destruct skip as [|k].
  - clear Hb Hhigh.
    destruct (Z_lt_le_dec (byte c) 128) as [Hc|Hc].
    + rewrite DecodeRune_ascii by exact Hc.
      pose proof (byte_range c) as Hrc.
      rewrite (lower_ascii _ facts) by lia.
      set (r := if (65 <=? byte c) && (byte c <=? 90) then byte c + 32 else byte c).
      assert (Hr : 0 <= r <= 127
                   /\ (r =? 48) = (byte c =? 48) /\ (r =? 50) = (byte c =? 50)).
      { subst r. destruct ((65 <=? byte c) && (byte c <=? 90)) eqn:E.
        - zbool. repeat split; try lia; now zdecide.
        - repeat split; lia. }
      destruct Hr as [Hr [H0 H2]].
      rewrite leb_true by lia. rewrite EncodeRune_ascii by exact Hr.
      change (String (chr r) "" +:+ ?x) with (String (chr r) x).
      cbn [scan20 Nat.pred]. rewrite byte_chr by lia. rewrite H0, H2.
      rewrite IH; [reflexivity|exact I|now left].
    + destruct (DecodeRune_high c t Hc) as [Hr Hcont].
      destruct (utf8.DecodeRuneInString (String c t)) as [r width].
      cbn [fst snd] in Hr, Hcont.
      pose proof (lower_nonneg _ facts r ltac:(lia)) as Hnn.
      pose proof (lower_no_digit _ facts r Hr) as Hnd.
      rewrite leb_true by exact Hnn.
      rewrite scan20_skip.
      * cbn [scan20]. rewrite (eqb_false (byte c) 48), (eqb_false (byte c) 50) by lia.
        rewrite andb_false_r. cbn [orb].
        apply IH; [exact Hcont|now right].
      * apply EncodeRune_nonempty.
      * destruct (Z_lt_le_dec (unicode_ToLower r) 128) as [Hlt|Hge].
        -- rewrite EncodeRune_ascii by lia. cbn [all_bytes]. unfold not_2_or_0.
           rewrite byte_chr by lia.
           rewrite !eqb_false by lia. reflexivity.
        -- eapply all_bytes_impl; [|apply EncodeRune_high; exact Hge].
           intros a Ha. unfold is_high in Ha. apply Z.leb_le in Ha.
           unfold not_2_or_0. rewrite !eqb_false by lia. reflexivity.
  - destruct Hb as [Hb | ->]; [discriminate|].
    destruct Hhigh as [Hc Hk]. cbn [scan20].
    rewrite (eqb_false (byte c) 50) by lia. cbn [andb orb].
    apply IH; [exact Hk|now right].
Qed.

Lemma Contains_20_ToLower s :
  strings_Contains (strings_ToLower unicode_ToLower s) "20"
  = strings_Contains s "20".
Proof.
  rewrite !Contains_20. unfold strings_ToLower, strings_Map.
  destruct (isASCII s).
  - apply scan20_lower_bytes.
  - apply scan20_Map; [exact I|now left].
Qed.

Lemma looks_like_date_spec s : looks_like_date unicode_ToLower s = date_like s.
Proof. unfold looks_like_date, date_like. now rewrite Contains_20_ToLower. Qed.

End LowerDigits.

(** ** Column-type inference *)

Section InferFacts.

Variable unicode_ToLower : Z -> Z.
Hypothesis facts : ToLower_facts unicode_ToLower.

(** What the loop over the sample leaves in the four flags. *)
Lemma observe_flags values :
  forall f0,
    let f := fold_left (observe unicode_ToLower) values f0 in
    hasInt f = hasInt f0 || existsb is_int_value values
    /\ hasFloat f = hasFloat f0 || existsb is_float_value values
    /\ hasString f = hasString f0 || existsb counts_as_plain values
    /\ hasDate f = hasDate f0 || existsb is_date_like_text values.
Proof.
  induction values as [|v vs IH]; intros f0; cbn [fold_left existsb].
  - rewrite !orb_false_r. auto.
  - destruct (IH (observe unicode_ToLower f0 v)) as [Hi [Hf [Hs Hd]]].
    cbn zeta in *. rewrite Hi, Hf, Hs, Hd. clear Hi Hf Hs Hd IH.
    destruct v as [|n|x|s|b|repr]; cbn [observe is_int_value is_float_value
      counts_as_plain is_date_like_text hasInt hasFloat hasString hasDate];
      rewrite ?(looks_like_date_spec _ facts);
      try destruct (date_like s);
      cbn [hasInt hasFloat hasString hasDate negb];
      rewrite ?orb_false_r, ?orb_true_r, ?orb_false_l, ?orb_true_l; auto.
Qed.

Lemma InferColumnType_priority values :
  InferColumnType unicode_ToLower values = priority_InferColumnType values.
Proof.
  unfold InferColumnType, priority_InferColumnType.
  destruct (observe_flags values (mkFlags false false false false))
    as [Hi [Hf [Hs Hd]]].
  cbn zeta in *. rewrite Hi, Hf, Hs, Hd. cbn [hasInt hasFloat hasString hasDate orb].
  destruct (existsb is_float_value values); [reflexivity|].
  cbn [negb]. now rewrite andb_true_r.
Qed.

End InferFacts.

Lemma existsb_float_middle before x after :
  existsb is_float_value (before ++ VFloat x :: after) = true.
Proof.
  rewrite existsb_app. cbn [existsb is_float_value]. now rewrite orb_true_r.
Qed.

Lemma only_ints values :
  forallb is_int_value values = true ->
  existsb is_float_value values = false /\ existsb counts_as_plain values = false
  /\ (values <> [] -> existsb is_int_value values = true).
Proof.
  induction values as [|v vs IH]; cbn [forallb existsb].
  - intros _. repeat split. contradiction.
  - intros H. apply andb_true_iff in H as [Hv Hvs].
    destruct (IH Hvs) as [Hf [Hp _]]. rewrite Hf, Hp.
    destruct v; try discriminate. repeat split.
Qed.

(** C4 as stated fails: a boolean next to a date-like text gives TEXT,
    where the rule as stated gives DATE (no float, no integer, a
    date-like text and no plain text); and an integer next to a
    date-like text gives INTEGER, where the rule as stated, for which a
    text value rules INTEGER out, gives DATE. *)
Lemma inference_differs_from_stated_rule :
  InferColumnType simple_ToLower [VBool true; VString "2024-01-01"] = "TEXT"
  /\ spec_InferColumnType [VBool true; VString "2024-01-01"] = "DATE"
  /\ InferColumnType simple_ToLower [VInt 1; VString "2024-01-01"] = "INTEGER"
  /\ spec_InferColumnType [VInt 1; VString "2024-01-01"] = "DATE".
Proof. repeat split. Qed.

(** C4, as amended: with "plain" standing for every text that is not
    date-like and every non-nil value that is neither a number nor a
    text, the inferred type is NUMERIC if the sample holds a float;
    else INTEGER if it holds an integer and nothing plain; else DATE if
    it holds a date-like text (one that contains "20" and is at least 8
    bytes long) and nothing plain; else TEXT.  A non-empty sample of
    integers only is INTEGER, and with one float put anywhere into it
    it is NUMERIC. *)
Theorem infer_by_priority
    (unicode_ToLower : Z -> Z) (facts : ToLower_facts unicode_ToLower)
    (values : list Value) :
  InferColumnType unicode_ToLower values
  = (if existsb is_float_value values then "NUMERIC"
     else if existsb is_int_value values && negb (existsb counts_as_plain values)
     then "INTEGER"
     else if existsb is_date_like_text values && negb (existsb counts_as_plain values)
     then "DATE"
     else "TEXT")
  /\ (values <> [] -> forallb is_int_value values = true ->
      InferColumnType unicode_ToLower values = "INTEGER"
      /\ forall (i : nat) (x : Z),
          InferColumnType unicode_ToLower (take i values ++ VFloat x :: drop i values)
          = "NUMERIC").
Proof.
  split; [now apply InferColumnType_priority|].
  intros Hne Hints. rewrite !InferColumnType_priority by exact facts.
  unfold priority_InferColumnType.
  destruct (only_ints values Hints) as [Hf [Hp Hi]].
  rewrite Hf, Hp, (Hi Hne). split; [reflexivity|].
  intros i x. rewrite InferColumnType_priority by exact facts.
  unfold priority_InferColumnType. now rewrite existsb_float_middle.
Qed.

Lemma simple_ToLower_facts : ToLower_facts simple_ToLower.
Proof.
  split; intros r Hr; unfold simple_ToLower; byte_consts;
    change (byte "k") with 107; change (byte "i") with 105.
  - repeat match goal with
      | |- context [if ?b then _ else _] => destruct b
      end; lia.
  - destruct ((65 <=? r) && (r <=? 90)) eqn:E; [reflexivity|].
    rewrite !eqb_false by lia. reflexivity.
  - destruct ((65 <=? r) && (r <=? 90)) eqn:E; [zbool; lia|].
    repeat match goal with
      | |- context [if ?b then _ else _] => destruct b
      end; lia.
Qed.

Lemma infer_by_priority_witness :
  InferColumnType simple_ToLower [VInt 1; VInt 2] = "INTEGER"
  /\ InferColumnType simple_ToLower [VInt 1; VFloat 0; VInt 2] = "NUMERIC".
Proof.
  destruct (infer_by_priority simple_ToLower simple_ToLower_facts [VInt 1; VInt 2])
    as [_ H].
  destruct H as [Hint Hfloat]; [discriminate|reflexivity|].
  split; [exact Hint|exact (Hfloat 1%nat 0)].
Defined.

(** * Further properties of the service *)

(** ** The transformer *)

Lemma Transform_identity (data : list DataRecord) : Transform data = data.
Proof.
  unfold Transform. induction data as [|record rest IH]; [reflexivity|].
  cbn [map]. rewrite IH. f_equal.
  apply map_eq. intros key. rewrite lookup_fmap.
  destruct (record !! key) as [[]|]; reflexivity.
Qed.

(** X1: the transformer hands every batch back as it got it: the same
    records in the same order, each with the same keys and values. *)
Theorem Transform_changes_nothing (data : list DataRecord) :
  Transform data = data.
Proof. apply Transform_identity. Qed.

(** ** The calls of a load *)

Section LoadCalls.

Variable unicode_ToLower : Z -> Z.
Variable e : ETLService.

Lemma insert_records_calls insertQuery columns data :
  forall trace,
    snd (insert_records e insertQuery columns data trace)
    = trace ++ map (fun record => Exec insertQuery (insert_values columns record)) data.
Proof.
  induction data as [|record rest IH]; intros trace.
  - cbn. now rewrite app_nil_r.
  - cbn [insert_records map]. unfold bind, db_Exec. cbn beta iota zeta.
    rewrite IH, <- app_assoc. reflexivity.
Qed.

Lemma CreateTable_run tableName data trace :
  data <> [] ->
  CreateTableIfNotExists unicode_ToLower e tableName data trace
  = (match Exec_reply (db e) trace (create_statement unicode_ToLower tableName data) [] with
     | Some err =>
         Some (Wrap ("failed to create table "
                       +:+ SanitizeTableName unicode_ToLower tableName +:+ ": ") err)
     | None => None
     end,
     trace ++ [Exec (create_statement unicode_ToLower tableName data) []]).
Proof.
  intros Hne. unfold CreateTableIfNotExists.
  rewrite bool_decide_eq_false_2 by (destruct data; [contradiction|discriminate]).
  unfold bind, db_Exec, create_statement. cbn beta iota zeta.
  destruct (Exec_reply _ _ _ _); reflexivity.
Qed.

Lemma CreateViews_calls tableName trace :
  snd (CreateStarSchemaViews unicode_ToLower e tableName trace)
  = trace ++ Query columns_query [VString tableName]
      :: match fst (AnalyzeColumnsWithLLM unicode_ToLower e tableName trace) with
         | Ok _ => [Exec (view_statement tableName) []]
         | Fail _ => []
         end.
Proof.
  unfold CreateStarSchemaViews, bind.
  pose proof (Analyze_extends unicode_ToLower e tableName trace) as Ha.
  destruct (AnalyzeColumnsWithLLM unicode_ToLower e tableName trace)
    as [[analysis|err] trace']; cbn [fst snd] in *; subst trace'.
  - unfold db_Exec, view_statement. cbn beta iota zeta.
    destruct (Exec_reply _ _ _ _); cbn [snd ret]; now rewrite <- app_assoc.
  - reflexivity.
Qed.

Lemma Load_run first rest trace :
  let data := first :: rest in
  let created := trace ++ [Exec (create_statement unicode_ToLower (auto_table_name data) data) []] in
  let inserted := created ++ map (fun record =>
                      Exec (insert_statement unicode_ToLower data)
                           (insert_values (first_record_columns data) record)) data in
  LoadToPostgreSQL unicode_ToLower e data trace
  = match Exec_reply (db e) trace
            (create_statement unicode_ToLower (auto_table_name data) data) [] with
    | Some err =>
        (Some (Wrap "failed to create table: "
                 (Wrap ("failed to create table "
                          +:+ SanitizeTableName unicode_ToLower (auto_table_name data)
                          +:+ ": ") err)),
         created)
    | None =>
        (None,
         snd (CreateStarSchemaViews unicode_ToLower e (auto_table_name data) inserted))
    end.
Proof.
  cbn zeta. unfold LoadToPostgreSQL, bind, insert_statement, first_record_columns.
  rewrite CreateTable_run by discriminate.
  destruct (Exec_reply _ _ _ _) as [err|]; [reflexivity|].
  match goal with
  | |- context [insert_records e ?q ?c ?d ?t] =>
      pose proof (insert_records_calls q c d t) as Hi;
      destruct (insert_records e q c d t) as [[] trace2]
  end.
  cbn [snd] in Hi. subst trace2.
  match goal with
  | |- context [CreateStarSchemaViews unicode_ToLower e ?n ?t] =>
      destruct (CreateStarSchemaViews unicode_ToLower e n t) as [result trace3]
  end.
  reflexivity.
Qed.

End LoadCalls.

(** X2: once the table is created, a load asks for one insert per
    record, in the order of the batch and whatever the database answers
    to the inserts before, and then turns to the view: it queries the
    column catalog and sends the view statement exactly when the catalog
    could be read; when it could not, the catalog query is its last
    call. *)
Theorem load_inserts_every_record
    (unicode_ToLower : Z -> Z) (e : ETLService) (data : list DataRecord)
    (trace : list Event) :
  data <> [] ->
  Exec_reply (db e) trace
    (create_statement unicode_ToLower (auto_table_name data) data) [] = None ->
  let inserted :=
    trace
    ++ Exec (create_statement unicode_ToLower (auto_table_name data) data) []
    :: map (fun record =>
              Exec (insert_statement unicode_ToLower data)
                   (insert_values (first_record_columns data) record)) data in
  snd (LoadToPostgreSQL unicode_ToLower e data trace)
  = inserted
    ++ Query columns_query [VString (auto_table_name data)]
    :: match fst (AnalyzeColumnsWithLLM unicode_ToLower e
                    (auto_table_name data) inserted) with
       | Ok _ => [Exec (view_statement (auto_table_name data)) []]
       | Fail _ => []
       end.
Proof.
  intros Hne Hok. destruct data as [|first rest]; [contradiction|].
  cbn zeta. rewrite Load_run. rewrite Hok. cbn [snd]. rewrite CreateViews_calls.
  rewrite <- !app_assoc. reflexivity.
Qed.

Lemma load_inserts_every_record_witness :
  snd (LoadToPostgreSQL simple_ToLower
         (NewETLService reliable_minio (refusing_db "INSERT" []))
         [customer "1" "John"; customer "2" "Jane"] [])
  = [Exec ("CREATE TABLE IF NOT EXISTS auto_table_2 ("
             +:+ String quote "customer_id" +:+ String quote " TEXT, "
             +:+ String quote "customer_name" +:+ String quote " TEXT"
             +:+ ", id SERIAL PRIMARY KEY)") [];
     Exec "INSERT INTO auto_table_2 (customer_id, customer_name) VALUES ($1, $2)"
          [VString "1"; VString "John"];
     Exec "INSERT INTO auto_table_2 (customer_id, customer_name) VALUES ($1, $2)"
          [VString "2"; VString "Jane"];
     Query columns_query [VString "auto_table_2"];
     Exec "CREATE OR REPLACE VIEW auto_table_2_star_view AS SELECT * FROM auto_table_2" []].
Proof.
  etransitivity.
  - apply (load_inserts_every_record simple_ToLower
             (NewETLService reliable_minio (refusing_db "INSERT" []))
             [customer "1" "John"; customer "2" "Jane"] []);
      [discriminate|reflexivity].
  - vm_compute. reflexivity.
Defined.

(** X3: when the database refuses to create the table, the load stops
    there: the one statement it has sent is the [CREATE TABLE], no row is
    inserted and no view is asked for, and the error comes back wrapped
    twice. *)
Theorem load_stops_when_table_is_refused
    (unicode_ToLower : Z -> Z) (e : ETLService) (data : list DataRecord)
    (trace : list Event) (err : error) :
  data <> [] ->
  Exec_reply (db e) trace
    (create_statement unicode_ToLower (auto_table_name data) data) [] = Some err ->
  LoadToPostgreSQL unicode_ToLower e data trace
  = (Some (Wrap "failed to create table: "
             (Wrap ("failed to create table "
                      +:+ SanitizeTableName unicode_ToLower (auto_table_name data)
                      +:+ ": ") err)),
     trace ++ [Exec (create_statement unicode_ToLower (auto_table_name data) data) []]).
Proof.
  intros Hne Herr. destruct data as [|first rest]; [contradiction|].
  rewrite Load_run. now rewrite Herr.
Qed.

Lemma load_stops_when_table_is_refused_witness :
  exists statement,
    LoadToPostgreSQL simple_ToLower
      (NewETLService reliable_minio (refusing_db "CREATE TABLE" []))
      [customer "1" "John"] []
    = (Some (Wrap "failed to create table: "
               (Wrap "failed to create table auto_table_1: "
                     (External "permission denied"))),
       [Exec statement []]).
Proof.
  eexists.
  apply (load_stops_when_table_is_refused simple_ToLower
           (NewETLService reliable_minio (refusing_db "CREATE TABLE" []))
           [customer "1" "John"] [] (External "permission denied"));
    [discriminate|reflexivity].
Defined.

(** X4: the inserts of a load follow the first record.  There is an
    order of the keys of the first record, each taken once (the order
    in which its map happened to be walked), such that the call for the
    record at position [i] of the batch, which is the call number
    [i + 1] after the [CREATE TABLE], names these keys, sanitized, as
    its columns and binds the record's values under them in the same
    order.  So a key the record lacks is bound to [nil], and what the
    record holds under a key the first record does not have is never
    sent. *)
Theorem insert_follows_first_record
    (unicode_ToLower : Z -> Z) (e : ETLService) (first : DataRecord)
    (rest : list DataRecord) (trace : list Event) :
  let data := first :: rest in
  Exec_reply (db e) trace
    (create_statement unicode_ToLower (auto_table_name data) data) [] = None ->
  exists columns : list string,
    NoDup columns
    /\ (forall key, key ∈ columns <-> is_Some (first !! key))
    /\ forall (i : nat) (record : DataRecord),
        data !! i = Some record ->
        snd (LoadToPostgreSQL unicode_ToLower e data trace)
          !! (length trace + 1 + i)%nat
        = Some (Exec
                  ("INSERT INTO " +:+ auto_table_name data
                     +:+ " ("
                     +:+ strings_Join
                           (map (SanitizeColumnName unicode_ToLower) columns) ", "
                     +:+ ") VALUES ("
                     +:+ strings_Join
                           (imap (fun j _ => "$" +:+ pretty (j + 1)%nat)
                                 (map (SanitizeColumnName unicode_ToLower) columns))
                           ", "
                     +:+ ")")
                  (map (fun col => default VNil (record !! col)) columns)).
Proof.
  cbn zeta. intros Hok. exists (map_to_list first).*1.
  split; [apply NoDup_fst_map_to_list|]. split.
  - intros key. rewrite list_elem_of_fmap. split.
    + intros [[k v] [-> Hkv]]. apply elem_of_map_to_list in Hkv. cbn. eauto.
    + intros [v Hv]. exists (key, v). split; [reflexivity|].
      now apply elem_of_map_to_list.
  - intros i record Hi. rewrite Load_run, Hok. cbn [snd].
    rewrite CreateViews_calls.
    rewrite <- !app_assoc.
    rewrite lookup_app_r by lia.
    replace (length trace + 1 + i - length trace)%nat with (S i) by lia.
    cbn [app]. rewrite lookup_cons. cbv beta iota.
    rewrite lookup_app_l
      by (rewrite length_map; apply lookup_lt_Some in Hi; exact Hi).
    rewrite list_lookup_fmap, Hi. reflexivity.
Qed.

Lemma insert_follows_first_record_witness :
  exists columns : list string,
    NoDup columns
    /\ (forall key, key ∈ columns <-> is_Some (customer "1" "John" !! key))
    /\ forall (i : nat) (record : DataRecord),
        [customer "1" "John"; <["customer_id" := VInt 2]> (<["age" := VInt 30]> ∅)]
          !! i = Some record ->
        snd (LoadToPostgreSQL simple_ToLower
               (NewETLService reliable_minio (reliable_db []))
               [customer "1" "John";
                <["customer_id" := VInt 2]> (<["age" := VInt 30]> ∅)] [])
          !! (0 + 1 + i)%nat
        = Some (Exec
                  ("INSERT INTO auto_table_2 ("
                     +:+ strings_Join
                           (map (SanitizeColumnName simple_ToLower) columns) ", "
                     +:+ ") VALUES ("
                     +:+ strings_Join
                           (imap (fun j _ => "$" +:+ pretty (j + 1)%nat)
                                 (map (SanitizeColumnName simple_ToLower) columns))
                           ", "
                     +:+ ")")
                  (map (fun col => default VNil (record !! col)) columns)).
Proof.
  apply (insert_follows_first_record simple_ToLower
           (NewETLService reliable_minio (reliable_db []))
           (customer "1" "John")
           [<["customer_id" := VInt 2]> (<["age" := VInt 30]> ∅)] []).
  reflexivity.
Defined.

(** ** What table creation looks at *)



Lemma collect_entries (entries : list (string * Value)) :
  forall (acc : gmap string (list Value)) key,
    NoDup entries.*1 ->
    fold_left
      (fun acc '(key, value) => <[key := default [] (acc !! key) ++ [value]]> acc)
      entries acc !! key
    = match (list_to_map entries : DataRecord) !! key with
      | Some value => Some (default [] (acc !! key) ++ [value])
      | None => acc !! key
      end.
Proof.
  induction entries as [|[k v] rest IH]; intros acc key Hnd; [reflexivity|].
  cbn [fmap list_fmap fst] in Hnd. apply NoDup_cons in Hnd as [Hk Hnd].
  cbn [fold_left list_to_map foldr]. rewrite IH by exact Hnd. cbn.
  destruct (decide (k = key)) as [->|Hne].
  - rewrite (not_elem_of_list_to_map_1 (M := gmap string)) by exact Hk.
    now rewrite !lookup_insert_eq.
  - now rewrite !lookup_insert_ne by exact Hne.
Qed.

Lemma collect_record_lookup (acc : gmap string (list Value)) (record : DataRecord) key :
  collect_record acc record !! key
  = match record !! key with
    | Some value => Some (default [] (acc !! key) ++ [value])
    | None => acc !! key
    end.
Proof.
  unfold collect_record. rewrite collect_entries by apply NoDup_fst_map_to_list.
  now rewrite list_to_map_to_list.
Qed.

Lemma collect_fold_lookup (records : list DataRecord) :
  forall (acc : gmap string (list Value)) key,
    fold_left collect_record records acc !! key
    = match omap (fun record : DataRecord => record !! key) records with
      | [] => acc !! key
      | values => Some (default [] (acc !! key) ++ values)
      end.
Proof.
  induction records as [|record rest IH]; intros acc key; [reflexivity|].
  cbn [fold_left omap list_omap]. rewrite IH, collect_record_lookup.
  destruct (record !! key) as [value|]; [|reflexivity].
  cbn. destruct (omap _ rest); cbn; [reflexivity|].
  now rewrite <- app_assoc.
Qed.

Lemma column_sample_lookup (records : list DataRecord) (key : string) :
  fold_left collect_record records ∅ !! key
  = match omap (fun record : DataRecord => record !! key) records with
    | [] => None
    | values => Some values
    end.
Proof. rewrite collect_fold_lookup, lookup_empty. reflexivity. Qed.

(** X6: the sample of a column holds the values of the records that
    have the field, in the order of the batch; a record without the
    field adds nothing to it (no [nil] stands in), and a field no record
    has gets no column. *)
Theorem column_sample (records : list DataRecord) (key : string) :
  fold_left collect_record records ∅ !! key
  = match omap (fun record : DataRecord => record !! key) records with
    | [] => None
    | values => Some values
    end.
Proof. apply column_sample_lookup. Qed.

(** ** Type inference, without assumptions on the case table *)

Lemma observe_flags_code unicode_ToLower values :
  forall f0,
    let f := fold_left (observe unicode_ToLower) values f0 in
    hasInt f = hasInt f0 || existsb is_int_value values
    /\ hasFloat f = hasFloat f0 || existsb is_float_value values
    /\ hasString f = hasString f0 || existsb (sets_hasString unicode_ToLower) values
    /\ hasDate f = hasDate f0 || existsb (sets_hasDate unicode_ToLower) values.
Proof.
  induction values as [|v vs IH]; intros f0; cbn [fold_left existsb].
  - rewrite !orb_false_r. auto.
  - destruct (IH (observe unicode_ToLower f0 v)) as [Hi [Hf [Hs Hd]]].
    cbn zeta in *. rewrite Hi, Hf, Hs, Hd. clear Hi Hf Hs Hd IH.
    destruct v as [|n|x|s|b|repr]; cbn [observe is_int_value is_float_value
      sets_hasString sets_hasDate hasInt hasFloat hasString hasDate];
      try destruct (looks_like_date unicode_ToLower s);
      cbn [hasInt hasFloat hasString hasDate negb];
      rewrite ?orb_false_r, ?orb_true_r, ?orb_false_l, ?orb_true_l; auto.
Qed.

Lemma InferColumnType_flags unicode_ToLower values :
  InferColumnType unicode_ToLower values
  = if existsb is_float_value values then "NUMERIC"
    else if existsb is_int_value values
            && negb (existsb (sets_hasString unicode_ToLower) values)
    then "INTEGER"
    else if existsb (sets_hasDate unicode_ToLower) values
            && negb (existsb (sets_hasString unicode_ToLower) values)
    then "DATE"
    else "TEXT".
Proof.
  unfold InferColumnType.
  destruct (observe_flags_code unicode_ToLower values (mkFlags false false false false))
    as [Hi [Hf [Hs Hd]]].
  cbn zeta in *. rewrite Hi, Hf, Hs, Hd. cbn [hasInt hasFloat hasString hasDate orb].
  destruct (existsb is_float_value values); [reflexivity|].
  cbn [negb]. now rewrite andb_true_r.
Qed.

Lemma existsb_same_members (p : Value -> bool) (l1 l2 : list Value) :
  p VNil = false ->
  (forall v, v <> VNil -> In v l1 -> In v l2) ->
  existsb p l1 = true -> existsb p l2 = true.
Proof.
  intros Hnil Hsub H. apply existsb_exists in H as [v [Hin Hp]].
  apply existsb_exists. exists v. split; [|exact Hp].
  apply Hsub; [|exact Hin]. intros ->. congruence.
Qed.

Lemma existsb_same_set (p : Value -> bool) (l1 l2 : list Value) :
  p VNil = false ->
  (forall v, v <> VNil -> In v l1 <-> In v l2) ->
  existsb p l1 = existsb p l2.
Proof.
  intros Hnil Hsame.
  destruct (existsb p l1) eqn:E1, (existsb p l2) eqn:E2; try reflexivity.
  - rewrite <- E2. symmetry.
    apply (existsb_same_members p l1 l2 Hnil); [|exact E1].
    intros v Hv. now apply Hsame.
  - rewrite <- E1.
    apply (existsb_same_members p l2 l1 Hnil); [|exact E2].
    intros v Hv. now apply Hsame.
Qed.

(** X7: the inferred type depends on which non-nil values occur in
    the sample and on nothing else: two samples with the same non-nil
    members, in whatever order and number and with whatever [nil]s in
    between, get the same type; and the type is always one of NUMERIC,
    INTEGER, DATE and TEXT. *)
Theorem inference_sees_the_set_of_values
    (unicode_ToLower : Z -> Z) (sample1 sample2 : list Value) :
  (forall v, v <> VNil -> In v sample1 <-> In v sample2) ->
  InferColumnType unicode_ToLower sample1 = InferColumnType unicode_ToLower sample2
  /\ In (InferColumnType unicode_ToLower sample1) ["NUMERIC"; "INTEGER"; "DATE"; "TEXT"].
Proof.
  intros Hsame. rewrite !InferColumnType_flags. split.
  - rewrite (existsb_same_set is_float_value _ _ eq_refl Hsame).
    rewrite (existsb_same_set is_int_value _ _ eq_refl Hsame).
    rewrite (existsb_same_set (sets_hasString unicode_ToLower) _ _ eq_refl Hsame).
    rewrite (existsb_same_set (sets_hasDate unicode_ToLower) _ _ eq_refl Hsame).
    reflexivity.
  - repeat match goal with
      | |- context [if ?b then _ else _] => destruct b
      end; cbn; tauto.
Qed.

Lemma inference_sees_the_set_of_values_witness :
  InferColumnType simple_ToLower [VNil; VInt 2; VInt 1; VNil; VInt 2]
  = InferColumnType simple_ToLower [VInt 1; VInt 2].
Proof.
  apply (inference_sees_the_set_of_values simple_ToLower
           [VNil; VInt 2; VInt 1; VNil; VInt 2] [VInt 1; VInt 2]).
  intros v Hv. cbn. intuition congruence.
Defined.

(** X8: a sample without any non-nil value, the empty one included, is
    typed TEXT. *)
Theorem nil_sample_is_text (unicode_ToLower : Z -> Z) (sample : list Value) :
  (forall v, In v sample -> v = VNil) ->
  InferColumnType unicode_ToLower sample = "TEXT".
Proof.
  intros Hnil.
  assert (Hno : forall p : Value -> bool, p VNil = false -> existsb p sample = false).
  { intros p Hp. rewrite <- (existsb_same_set p [] sample Hp); [reflexivity|].
    intros v Hv. split; [contradiction|]. intros Hin. now apply Hnil in Hin. }
  rewrite InferColumnType_flags. now rewrite !Hno.
Qed.

Lemma nil_sample_is_text_witness :
  InferColumnType simple_ToLower [VNil; VNil] = "TEXT".
Proof.
  apply (nil_sample_is_text simple_ToLower [VNil; VNil]).
  intros v Hv. cbn in Hv. intuition congruence.
Defined.

(** A sample of texts only is never typed as a number. *)
Lemma texts_are_date_or_text unicode_ToLower (sample : list Value) :
  (forall v, In v sample -> exists s, v = VString s) ->
  InferColumnType unicode_ToLower sample = "DATE"
  \/ InferColumnType unicode_ToLower sample = "TEXT".
Proof.
  intros Htext.
  assert (Hno : forall p : Value -> bool,
             (forall s, p (VString s) = false) -> existsb p sample = false).
  { intros p Hp. destruct (existsb p sample) eqn:E; [|reflexivity].
    apply existsb_exists in E as [v [Hin Hv]].
    destruct (Htext v Hin) as [s ->]. now rewrite Hp in Hv. }
  rewrite InferColumnType_flags.
  rewrite (Hno is_float_value), (Hno is_int_value) by reflexivity.
  cbn [andb]. destruct (_ && _); auto.
Qed.

(** ** Records of a delimited-text file *)

(** The rightmost column under a header name is the one that stays. *)
Lemma fill_record_last headers :
  forall j row (record : DataRecord) (i : nat) h cell,
    headers !! i = Some h ->
    (forall i' : nat, (i < i')%nat -> headers !! i' <> Some h) ->
    row !! (j + i)%nat = Some cell ->
    fill_record j headers row record !! h = Some (VString cell).
Proof.
  induction headers as [|header rest IH]; intros j row record i h cell Hh Hlast Hc;
    [discriminate|].
  cbn [fill_record]. destruct i as [|i]; cbn in Hh.
  - injection Hh as ->. rewrite Nat.add_0_r in Hc. rewrite Hc.
    rewrite fill_record_absent; [apply lookup_insert_eq|].
    intros i Hi. exfalso. apply (Hlast (S i)); [lia|exact Hi].
  - eapply IH; [exact Hh| |now rewrite Nat.add_succ_l, <- Nat.add_succ_r].
    intros i' Hlt. apply (Hlast (S i')). lia.
Qed.

Lemma fill_record_strings headers :
  forall j row (record : DataRecord),
    (forall key v, record !! key = Some v -> exists s, v = VString s) ->
    forall key v,
      fill_record j headers row record !! key = Some v -> exists s, v = VString s.
Proof.
  induction headers as [|header rest IH]; intros j row record Hrec key v;
    cbn [fill_record]; [apply Hrec|].
  apply IH. intros k w. destruct (row !! j) as [cell|]; [|apply Hrec].
  destruct (decide (header = k)) as [->|Hne].
  - rewrite lookup_insert_eq. intros [= <-]. eauto.
  - rewrite lookup_insert_ne by exact Hne. apply Hrec.
Qed.

(** X9: a file the reader accepts gives one record per row after the
    header.  Every row has as many cells as the header, every value of a
    record is a text, a record has no key outside the header, and under
    a header name it holds the cell of the rightmost column of that
    name (so of the column itself, when the name occurs once). *)
Theorem csv_records_follow_header
    (os_Open : string -> Result string) (filePath file : string)
    (headers : list string) (rows : list (list string)) :
  os_Open filePath = Ok file ->
  csv_ReadAll file = Ok (headers :: rows) ->
  exists records,
    ExtractFromCSV os_Open filePath = Ok records
    /\ length records = length rows
    /\ forall (i : nat) row,
        rows !! i = Some row ->
        exists record : DataRecord,
          records !! i = Some record
          /\ length row = length headers
          /\ (forall (j : nat) h,
                headers !! j = Some h ->
                (forall j' : nat, (j < j')%nat -> headers !! j' <> Some h) ->
                exists cell, row !! j = Some cell /\ record !! h = Some (VString cell))
          /\ (forall h, ~ In h headers -> record !! h = None)
          /\ (forall key v, record !! key = Some v -> exists s, v = VString s).
Proof.
  intros Hopen Hread. eexists. split; [exact (extract_rows _ _ _ _ _ Hopen Hread)|].
  split; [apply length_map|].
  intros i row Hrow. eexists. split; [rewrite list_lookup_fmap, Hrow; reflexivity|].
  pose proof (csv_ReadAll_uniform _ _ _ Hread) as Huni.
  rewrite Forall_forall in Huni.
  assert (Hlen : length row = length headers).
  { apply Huni. eapply list_elem_of_lookup_2, Hrow. }
  split; [exact Hlen|]. split; [|split].
  - intros j h Hh Hlast.
    destruct (row !! j) as [cell|] eqn:Hcell.
    + exists cell. split; [reflexivity|]. now apply (fill_record_last headers 0 row ∅ j).
    + apply lookup_ge_None in Hcell. apply lookup_lt_Some in Hh. lia.
  - intros h Hnot. rewrite fill_record_absent; [apply lookup_empty|].
    intros j Hj. exfalso. apply Hnot, list_elem_of_In. eapply list_elem_of_lookup_2, Hj.
  - apply fill_record_strings. intros key v. now rewrite lookup_empty.
Qed.

Lemma csv_records_follow_header_witness :
  exists records,
    ExtractFromCSV (one_file "customers.csv" customers_csv) "customers.csv" = Ok records
    /\ length records = 2%nat.
Proof.
  destruct (csv_records_follow_header (one_file "customers.csv" customers_csv)
              "customers.csv" customers_csv ["customer_id"; "customer_name"]
              [["1"; "John"]; ["2"; "Jane"]] eq_refl eq_refl)
    as [records [Hx [Hlen _]]].
  exists records. split; [exact Hx|exact Hlen].
Defined.

(** X10: no column of a delimited-text file is created as a number.
    Whatever the cells hold, the type inferred for the sample of any
    column of the extracted records is DATE or TEXT, never INTEGER or
    NUMERIC. *)
Theorem csv_columns_are_date_or_text
    (unicode_ToLower : Z -> Z) (os_Open : string -> Result string)
    (filePath : string) (records : list DataRecord)
    (sampleSize : nat) (key : string) (values : list Value) :
  ExtractFromCSV os_Open filePath = Ok records ->
  fold_left collect_record (take sampleSize records) ∅ !! key = Some values ->
  InferColumnType unicode_ToLower values = "DATE"
  \/ InferColumnType unicode_ToLower values = "TEXT".
Proof.
  intros Hx Hsample. apply texts_are_date_or_text.
  assert (Hrec : forall record : DataRecord,
             In record records ->
             forall k v, record !! k = Some v -> exists s, v = VString s).
  { unfold ExtractFromCSV in Hx.
    destruct (os_Open filePath) as [file|]; [|discriminate].
    destruct (csv_ReadAll file) as [[|headers rows]|]; try discriminate.
    injection Hx as <-. intros record Hin. apply in_map_iff in Hin as [row [<- _]].
    apply fill_record_strings. intros k v. now rewrite lookup_empty. }
  rewrite column_sample_lookup in Hsample.
  intros v Hv.
  assert (Hin : v ∈ omap (fun record : DataRecord => record !! key)
                       (take sampleSize records)).
  { destruct (omap _ _); [discriminate|]. injection Hsample as <-.
    now apply list_elem_of_In. }
  apply list_elem_of_omap in Hin as [record [Hrecord Hlookup]].
  apply (Hrec record) with key; [|exact Hlookup].
  apply elem_of_take in Hrecord as [i [Hi _]].
  apply list_elem_of_In. eapply list_elem_of_lookup_2, Hi.
Qed.

Lemma csv_columns_are_date_or_text_witness :
  InferColumnType simple_ToLower [VString "1"; VString "2"] = "DATE"
  \/ InferColumnType simple_ToLower [VString "1"; VString "2"] = "TEXT".
Proof.
  apply (csv_columns_are_date_or_text simple_ToLower
           (one_file "customers.csv" customers_csv) "customers.csv"
           [customer "1" "John"; customer "2" "Jane"] 100 "customer_id");
    vm_compute; reflexivity.
Defined.

(** ** Names *)

Lemma pretty_N_char_digit d : is_digit (pretty_N_char d) = true.
Proof. unfold pretty_N_char. repeat case_match; reflexivity. Qed.

Lemma pretty_N_go_digits x :
  forall s, all_bytes is_digit s = true -> all_bytes is_digit (pretty_N_go x s) = true.
Proof.
  induction (N.lt_wf_0 x) as [x _ IH]. intros s Hs.
  destruct (decide (x = 0)%N) as [->|Hx]; [now rewrite pretty_N_go_0|].
  rewrite pretty_N_go_step by lia. apply IH.
  - apply N.div_lt; lia.
  - cbn [all_bytes]. now rewrite pretty_N_char_digit, Hs.
Qed.

Lemma pretty_N_go_length (k : nat) :
  forall x s,
    (x < 10 ^ N.of_nat k)%N ->
    (String.length (pretty_N_go x s) <= String.length s + k)%nat.
Proof.
  induction k as [|k IH]; intros x s Hx.
  - assert (x = 0%N) as -> by (cbn in Hx; lia). rewrite pretty_N_go_0. lia.
  - destruct (decide (x = 0)%N) as [->|Hpos]; [rewrite pretty_N_go_0; lia|].
    rewrite pretty_N_go_step by lia.
    etransitivity; [apply IH|cbn [String.length]; lia].
    apply N.Div0.div_lt_upper_bound.
    rewrite Nat2N.inj_succ, N.pow_succ_r' in Hx. exact Hx.
Qed.

Lemma pretty_nat_digits (n : nat) :
  all_bytes is_digit (pretty n) = true
  /\ ((N.of_nat n < 10 ^ 19)%N -> (String.length (pretty n) <= 19)%nat).
Proof.
  unfold pretty, pretty_nat, pretty, pretty_N. case_decide.
  - split; [reflexivity|]. cbn. lia.
  - split; [now apply pretty_N_go_digits|].
    intros Hn. apply (pretty_N_go_length 19 _ "" Hn).
Qed.

Lemma length_app_string s1 s2 :
  String.length (s1 +:+ s2) = (String.length s1 + String.length s2)%nat.
Proof.
  induction s1 as [|c s1 IH]; [reflexivity|].
  change (String c s1 +:+ s2) with (String c (s1 +:+ s2)). cbn. now rewrite IH.
Qed.

Lemma Sanitize_auto_table_name (unicode_ToLower : Z -> Z) (data : list DataRecord) :
  (N.of_nat (length data) < 2 ^ 63)%N ->
  SanitizeTableName unicode_ToLower (auto_table_name data) = auto_table_name data.
Proof.
  intros Hlen.
  change (SanitizeTableName unicode_ToLower) with (sanitize_with unicode_ToLower "t_").
  apply sanitize_with_fix. unfold clean, auto_table_name.
  destruct (pretty_nat_digits (length data)) as [Hdigits Hshort].
  rewrite all_bytes_app.
  rewrite (all_bytes_impl is_digit ident_byte (pretty (length data)));
    [|intros c Hc; unfold ident_byte; rewrite Hc; now rewrite orb_true_r|exact Hdigits].
  cbn [all_bytes andb]. change (is_lower "a" || is_digit "a" || is_underscore "a") with true.
  apply Z.leb_le. unfold len. rewrite length_app_string.
  assert (String.length (pretty (length data)) <= 19)%nat.
  { apply Hshort. eapply N.lt_trans; [exact Hlen|reflexivity]. }
  cbn [String.length]. lia.
Qed.


(** X11: for every batch Go can hold (its length is an [int]), the
    table name [auto_table_n] is already a clean identifier: sanitizing
    it for the [CREATE TABLE] statement leaves it as it is, so that
    statement, the inserts and the view all name one table. *)
Theorem load_names_one_table (unicode_ToLower : Z -> Z) (data : list DataRecord) :
  (N.of_nat (length data) < 2 ^ 63)%N ->
  SanitizeTableName unicode_ToLower (auto_table_name data) = auto_table_name data.
Proof. apply Sanitize_auto_table_name. Qed.

Lemma load_names_one_table_witness :
  SanitizeTableName simple_ToLower (auto_table_name [customer "1" "John"])
  = "auto_table_1".
Proof.
  rewrite (load_names_one_table simple_ToLower [customer "1" "John"]);
    [reflexivity|]. cbn. lia.
Defined.

(** ** The table a load is aimed at *)

Lemma Load_calls_on (unicode_ToLower : Z -> Z) (e : ETLService)
    (data : list DataRecord) (trace : list Event) :
  (N.of_nat (length data) < 2 ^ 63)%N ->
  exists calls,
    snd (LoadToPostgreSQL unicode_ToLower e data trace) = trace ++ calls
    /\ load_calls_on (auto_table_name data) data calls.
Proof.
  intros Hlen. destruct data as [|first rest].
  - exists []. split; [cbn; now rewrite app_nil_r|reflexivity].
  - rewrite Load_run. cbn zeta.
    set (data := first :: rest) in *.
    assert (Hcreate : create_statement unicode_ToLower (auto_table_name data) data
                      = "CREATE TABLE IF NOT EXISTS " +:+ auto_table_name data
                          +:+ " ("
                          +:+ strings_Join
                                (map (column_def unicode_ToLower)
                                   (map_to_list
                                      (fold_left collect_record
                                         (take (if bool_decide (100 < length data)%nat
                                                then 100%nat else length data) data)
                                         ∅))) ", "
                          +:+ ", id SERIAL PRIMARY KEY)").
    { unfold create_statement. cbv zeta.
      now rewrite (Sanitize_auto_table_name unicode_ToLower data Hlen). }
    destruct (Exec_reply (db e) trace
                (create_statement unicode_ToLower (auto_table_name data) data) [])
      as [err|].
    + eexists. split; [reflexivity|].
      unfold load_calls_on, data at 1.
      eexists. exists EmptyString, EmptyString, (fun _ => []).
      cbv zeta. left. rewrite Hcreate. reflexivity.
    + cbn [snd]. rewrite CreateViews_calls. rewrite <- !app_assoc.
      eexists. split; [reflexivity|].
      unfold load_calls_on, data at 1. do 3 eexists.
      exists (insert_values (first_record_columns data)).
      cbv zeta. right. rewrite Hcreate. unfold insert_statement.
      destruct (fst _); [right|left]; cbn [app]; reflexivity.
Qed.

(** C8: the table a batch is loaded into is [auto_table_n] for its
    number [n] of records and nothing else.  For two batches of the
    same size, whatever they hold and whatever was done before, every
    call of either load names that one table: the [CREATE TABLE], every
    [INSERT], the query of the column catalog and the view.  (A batch
    without records makes no call at all.)  The number of records is a
    Go [int], hence below [2 ^ 63]: the name then passes the sanitizer
    of the [CREATE TABLE] statement unchanged. *)
Theorem table_name_from_record_count
    (unicode_ToLower : Z -> Z) (e : ETLService) (d1 d2 : list DataRecord)
    (trace1 trace2 : list Event) :
  length d1 = length d2 ->
  (N.of_nat (length d1) < 2 ^ 63)%N ->
  exists calls1 calls2,
    snd (LoadToPostgreSQL unicode_ToLower e d1 trace1) = trace1 ++ calls1
    /\ snd (LoadToPostgreSQL unicode_ToLower e d2 trace2) = trace2 ++ calls2
    /\ load_calls_on ("auto_table_" +:+ pretty (length d1)) d1 calls1
    /\ load_calls_on ("auto_table_" +:+ pretty (length d1)) d2 calls2.
Proof.
  intros Hsame Hlen.
  destruct (Load_calls_on unicode_ToLower e d1 trace1 Hlen) as [calls1 [H1 Hon1]].
  assert (Hlen2 : (N.of_nat (length d2) < 2 ^ 63)%N) by now rewrite <- Hsame.
  destruct (Load_calls_on unicode_ToLower e d2 trace2 Hlen2) as [calls2 [H2 Hon2]].
  exists calls1, calls2. repeat split; try assumption.
  unfold auto_table_name in Hon2. now rewrite <- Hsame in Hon2.
Qed.

Lemma table_name_from_record_count_witness :
  exists calls1 calls2,
    snd (LoadToPostgreSQL simple_ToLower
           (NewETLService reliable_minio (reliable_db []))
           [customer "1" "John"] []) = [] ++ calls1
    /\ snd (LoadToPostgreSQL simple_ToLower
              (NewETLService reliable_minio (reliable_db []))
              [<["sku" := VInt 7]> ∅] [Query "SELECT 1" []])
       = [Query "SELECT 1" []] ++ calls2
    /\ load_calls_on "auto_table_1" [customer "1" "John"] calls1
    /\ load_calls_on "auto_table_1" [<["sku" := VInt 7]> ∅] calls2.
Proof.
  apply (table_name_from_record_count simple_ToLower
           (NewETLService reliable_minio (reliable_db []))
           [customer "1" "John"] [<["sku" := VInt 7]> ∅] [] [Query "SELECT 1" []]).
  - reflexivity.
  - reflexivity.
Defined.

(** X12: batches of different sizes never share a table: the name
    determines the number of records. *)
Theorem different_counts_different_tables (d1 d2 : list DataRecord) :
  auto_table_name d1 = auto_table_name d2 <-> length d1 = length d2.
Proof.
  split; [apply auto_table_name_inj|].
  intros Hlen. unfold auto_table_name. now rewrite Hlen.
Qed.

(** X13: the strings a sanitizer leaves unchanged are exactly the clean
    ones: made of [a-z0-9_] only, at most 63 bytes long, and not
    starting with a digit or an underscore (the empty string among
    them).  Every result of a sanitizer is such a string. *)
Theorem sanitizer_fixed_points (unicode_ToLower : Z -> Z) (s : string) :
  (SanitizeTableName unicode_ToLower s = s <-> clean s = true)
  /\ (SanitizeColumnName unicode_ToLower s = s <-> clean s = true)
  /\ clean (SanitizeTableName unicode_ToLower s) = true
  /\ clean (SanitizeColumnName unicode_ToLower s) = true.
Proof.
  change (SanitizeTableName unicode_ToLower) with (sanitize_with unicode_ToLower "t_").
  change (SanitizeColumnName unicode_ToLower) with (sanitize_with unicode_ToLower "c_").
  assert (Ht : clean (sanitize_with unicode_ToLower "t_" s) = true)
    by (apply sanitize_with_clean; [reflexivity|reflexivity|discriminate]).
  assert (Hc : clean (sanitize_with unicode_ToLower "c_" s) = true)
    by (apply sanitize_with_clean; [reflexivity|reflexivity|discriminate]).
  repeat split; try assumption; try apply sanitize_with_fix.
  - intros H. now rewrite H in Ht.
  - intros H. now rewrite H in Hc.
Qed.

(** ** The classifier and the view, once more *)

Lemma classify_names_only unicode_ToLower (c1 : list (string * string)) :
  forall c2 r0,
    map fst c1 = map fst c2 ->
    fold_left (classify unicode_ToLower) c1 r0
    = fold_left (classify unicode_ToLower) c2 r0.
Proof.
  induction c1 as [|[n1 t1] c1 IH]; intros [|[n2 t2] c2] r0 Hnames;
    try discriminate; [reflexivity|].
  cbn in Hnames. injection Hnames as -> Hrest. cbn [fold_left].
  rewrite (IH c2 _ Hrest). reflexivity.
Qed.

Lemma classify_keeps unicode_ToLower (columns : list (string * string)) :
  forall r0,
    TableName (fold_left (classify unicode_ToLower) columns r0) = TableName r0
    /\ Relationships (fold_left (classify unicode_ToLower) columns r0)
       = Relationships r0.
Proof.
  induction columns as [|c cs IH]; intros r0; cbn [fold_left]; [auto|].
  destruct (IH (classify unicode_ToLower r0 c)) as [-> ->].
  unfold classify. repeat case_match; auto.
Qed.

(** X14: the classification is a function of the column names, in the
    order of the catalog: the data types the catalog reports make no
    difference, the relationship list is always empty, and the result
    carries the table name it was asked for. *)
Theorem classification_reads_names_only
    (unicode_ToLower : Z -> Z) (e1 e2 : ETLService) (t : string)
    (trace1 trace2 : list Event) (rows1 rows2 : list (Result (string * string)))
    (columns1 columns2 : list (string * string)) :
  Query_reply (db e1) trace1 columns_query [VString t] = Ok rows1 ->
  scan_columns rows1 [] = Ok columns1 ->
  Query_reply (db e2) trace2 columns_query [VString t] = Ok rows2 ->
  scan_columns rows2 [] = Ok columns2 ->
  map fst columns1 = map fst columns2 ->
  exists result,
    fst (AnalyzeColumnsWithLLM unicode_ToLower e1 t trace1) = Ok result
    /\ fst (AnalyzeColumnsWithLLM unicode_ToLower e2 t trace2) = Ok result
    /\ TableName result = t
    /\ Relationships result = [].
Proof.
  intros Hq1 Hs1 Hq2 Hs2 Hnames.
  rewrite (Analyze_result unicode_ToLower e1 t trace1 rows1 columns1 Hq1 Hs1).
  rewrite (Analyze_result unicode_ToLower e2 t trace2 rows2 columns2 Hq2 Hs2).
  eexists. split; [reflexivity|]. split.
  - now rewrite (classify_names_only unicode_ToLower columns1 columns2).
  - apply classify_keeps.
Qed.

Lemma classification_reads_names_only_witness :
  fst (AnalyzeColumnsWithLLM simple_ToLower
         (NewETLService reliable_minio (reliable_db [("total", "integer")])) "sales" [])
  = fst (AnalyzeColumnsWithLLM simple_ToLower
           (NewETLService reliable_minio (reliable_db [("total", "text")])) "sales" []).
Proof.
  destruct (classification_reads_names_only simple_ToLower
              (NewETLService reliable_minio (reliable_db [("total", "integer")]))
              (NewETLService reliable_minio (reliable_db [("total", "text")]))
              "sales" [] [] [Ok ("total", "integer")] [Ok ("total", "text")]
              [("total", "integer")] [("total", "text")]
              eq_refl eq_refl eq_refl eq_refl eq_refl)
    as [result [H1 [H2 _]]].
  now rewrite H1, H2.
Defined.

(** X15: when the column catalog cannot be read, because the query
    fails or because a row cannot be scanned, the view synthesizer sends
    no statement at all: its only call is the catalog query, and it
    returns the error of the analysis wrapped. *)
Theorem no_view_without_catalog
    (unicode_ToLower : Z -> Z) (e : ETLService) (t : string)
    (trace : list Event) (err : error) :
  fst (AnalyzeColumnsWithLLM unicode_ToLower e t trace) = Fail err ->
  CreateStarSchemaViews unicode_ToLower e t trace
  = (Some (Wrap "failed to analyze columns with LLM: " err),
     trace ++ [Query columns_query [VString t]]).
Proof.
  intros Hfail. unfold CreateStarSchemaViews, bind.
  pose proof (Analyze_extends unicode_ToLower e t trace) as Ha.
  destruct (AnalyzeColumnsWithLLM unicode_ToLower e t trace) as [[analysis|err'] trace'];
    cbn [fst snd] in *; [discriminate|].
  injection Hfail as ->. subst trace'. reflexivity.
Qed.

Lemma no_view_without_catalog_witness :
  CreateStarSchemaViews simple_ToLower
    (NewETLService reliable_minio
       {| Exec_reply := fun _ _ _ => None;
          Query_reply := fun _ _ _ => Fail (External "connection lost") |})
    "sales" []
  = (Some (Wrap "failed to analyze columns with LLM: "
             (Wrap "failed to get table structure: " (External "connection lost"))),
     [Query columns_query [VString "sales"]]).
Proof.
  apply (no_view_without_catalog simple_ToLower
           (NewETLService reliable_minio
              {| Exec_reply := fun _ _ _ => None;
                 Query_reply := fun _ _ _ => Fail (External "connection lost") |})
           "sales" []).
  reflexivity.
Defined.

(** ** The run as a whole *)

Section Run.

Variable unicode_ToLower : Z -> Z.
Variable json_Marshal : list DataRecord -> Result string.
Variable ExtractFromFile : string -> Result (list DataRecord).
Variable filepath_Base : string -> string.
Variable e : ETLService.

Local Abbreviation Process :=
  (ProcessETLFromFile unicode_ToLower json_Marshal ExtractFromFile filepath_Base e).

Lemma Process_outcome filePath trace :
  fst (Process filePath trace) = None
  <-> exists data,
      ExtractFromFile filePath = Ok data
      /\ fst (LoadToMinIO json_Marshal e data ("raw_" +:+ filepath_Base filePath) trace)
         = None
      /\ fst (CreateTableIfNotExists unicode_ToLower e (auto_table_name data) data
                (snd (LoadToMinIO json_Marshal e data
                        ("raw_" +:+ filepath_Base filePath) trace))) = None.
Proof.
  unfold ProcessETLFromFile, bind.
  destruct (ExtractFromFile filePath) as [data|err].
  - rewrite Transform_identity.
    destruct (LoadToMinIO json_Marshal e data _ trace) as [[err|] trace1] eqn:Harch.
    + cbn [fst]. split; [discriminate|]. intros [d [[= <-] [H _]]].
      rewrite Harch in H. discriminate.
    + pose proof (Load_outcome unicode_ToLower e data trace1) as Hout.
      destruct (LoadToPostgreSQL unicode_ToLower e data trace1) as [result trace2].
      cbn [fst snd] in *. subst result. split.
      * intros H. exists data. rewrite Harch. cbn [fst snd]. repeat split.
        destruct (fst (CreateTableIfNotExists _ _ _ _ _)); [discriminate|reflexivity].
      * intros [d [[= <-] [_ H]]]. rewrite Harch in H. cbn [snd] in H.
        now rewrite H.
  - cbn [fst]. split; [discriminate|]. intros [d [H _]]. discriminate.
Qed.

End Run.

(** X16: a run over a file returns [nil] exactly when the file could be
    extracted, the batch could be archived and the table could be
    created (for an empty batch there is none to create): no insert and
    no view that fails afterwards makes the run fail.  When extraction
    fails, the run returns that error wrapped and calls neither store. *)
Theorem run_succeeds_iff
    (unicode_ToLower : Z -> Z)
    (json_Marshal : list DataRecord -> Result string)
    (ExtractFromFile : string -> Result (list DataRecord))
    (filepath_Base : string -> string)
    (e : ETLService) (filePath : string) (trace : list Event) :
  (fst (ProcessETLFromFile unicode_ToLower json_Marshal ExtractFromFile
          filepath_Base e filePath trace) = None
   <-> exists data,
       ExtractFromFile filePath = Ok data
       /\ fst (LoadToMinIO json_Marshal e data ("raw_" +:+ filepath_Base filePath) trace)
          = None
       /\ fst (CreateTableIfNotExists unicode_ToLower e (auto_table_name data) data
                 (snd (LoadToMinIO json_Marshal e data
                         ("raw_" +:+ filepath_Base filePath) trace))) = None)
  /\ (forall err,
        ExtractFromFile filePath = Fail err ->
        ProcessETLFromFile unicode_ToLower json_Marshal ExtractFromFile
          filepath_Base e filePath trace
        = (Some (Wrap "extract failed: " err), trace)).
Proof.
  split; [apply Process_outcome|].
  intros err Hx. unfold ProcessETLFromFile. now rewrite Hx.
Qed.

(** X17: a file that yields no record is still archived: the run writes
    the (empty) batch to the object [raw/raw_<base name>] of the
    service's bucket, asks nothing of the warehouse, and returns what
    MinIO answered, wrapped if it is an error. *)
Theorem empty_batch_is_archived
    (unicode_ToLower : Z -> Z)
    (json_Marshal : list DataRecord -> Result string)
    (ExtractFromFile : string -> Result (list DataRecord))
    (filepath_Base : string -> string)
    (e : ETLService) (filePath payload : string) (trace : list Event) :
  ExtractFromFile filePath = Ok [] ->
  json_Marshal [] = Ok payload ->
  ProcessETLFromFile unicode_ToLower json_Marshal ExtractFromFile
    filepath_Base e filePath trace
  = (match PutObject_reply (minioClient e) trace (minioBucket e)
             ("raw/" +:+ ("raw_" +:+ filepath_Base filePath)) payload with
     | Some err => Some (Wrap "load to MinIO failed: " err)
     | None => None
     end,
     trace ++ [PutObject (minioBucket e)
                 ("raw/" +:+ ("raw_" +:+ filepath_Base filePath)) payload]).
Proof.
  intros Hx Hm. unfold ProcessETLFromFile, bind, LoadToMinIO, minio_PutObject.
  rewrite Hx. cbn [Transform map]. rewrite Hm.
  destruct (PutObject_reply _ _ _ _ _); reflexivity.
Qed.

Lemma empty_batch_is_archived_witness :
  ProcessETLFromFile simple_ToLower marshal_ok
    (ExtractFromCSV (one_file "header.csv"
                       ("customer_id,customer_name" +:+ String nl EmptyString)))
    base_id (NewETLService reliable_minio (reliable_db [])) "header.csv" []
  = (None, [PutObject "raw" "raw/raw_header.csv" "[...]"]).
Proof.
  apply (empty_batch_is_archived simple_ToLower marshal_ok
           (ExtractFromCSV (one_file "header.csv"
                              ("customer_id,customer_name" +:+ String nl EmptyString)))
           base_id (NewETLService reliable_minio (reliable_db []))
           "header.csv" "[...]" []); reflexivity.
Defined.

(** ** Format detection *)

Lemma string_app_assoc (s1 s2 s3 : string) :
  (s1 +:+ s2) +:+ s3 = s1 +:+ (s2 +:+ s3).
Proof.
  induction s1 as [|c s1 IH]; [reflexivity|].
  change (String c s1 +:+ s2) with (String c (s1 +:+ s2)).
  change (String c (s1 +:+ s2) +:+ s3) with (String c ((s1 +:+ s2) +:+ s3)).
  now rewrite IH.
Qed.

Lemma ext_scan_app p suffix found :
  ext_scan suffix = Some found -> ext_scan (p +:+ suffix) = Some found.
Proof.
  intros Hs. induction p as [|c p IH]; [exact Hs|].
  change (String c p +:+ suffix) with (String c (p +:+ suffix)).
  cbn [ext_scan]. now rewrite IH.
Qed.

Lemma ext_scan_name name : all_bytes name_byte name = true -> ext_scan name = None.
Proof.
  induction name as [|c name IH]; [reflexivity|].
  cbn [all_bytes ext_scan]. intros H. apply andb_true_iff in H as [Hc Hn].
  rewrite (IH Hn). unfold name_byte in Hc.
  apply andb_true_iff in Hc as [Hdot Hslash].
  apply negb_true_iff in Hdot, Hslash. now rewrite Hdot, Hslash.
Qed.

(** The extension of a path is what follows its last dot, whatever
    stands before. *)
Lemma filepath_Ext_app p name :
  all_bytes name_byte name = true ->
  filepath_Ext (p +:+ String "." name) = String "." name.
Proof.
  intros Hname. unfold filepath_Ext.
  rewrite (ext_scan_app p (String "." name) (Some (String "." name))); [reflexivity|].
  cbn [ext_scan]. now rewrite (ext_scan_name name Hname).
Qed.

Lemma lower_byte_name c : name_byte (lower_byte c) = name_byte c.
Proof.
  unfold lower_byte. byte_consts.
  destruct ((65 <=? byte c) && (byte c <=? 90)) eqn:E; [|reflexivity].
  zbool. pose proof (byte_range c).
  assert (Hc : forall d : ascii, byte d <> byte c -> bool_decide (c = d) = false).
  { intros d Hd. apply bool_decide_eq_false_2. intros ->. now apply Hd. }
  assert (Hl : forall d : ascii, byte d <> byte c + 32 ->
                                 bool_decide (chr (byte c + (97 - 65)) = d) = false).
  { intros d Hd. apply bool_decide_eq_false_2. intros <-.
    apply Hd. rewrite byte_chr by lia. lia. }
  unfold name_byte. rewrite !Hc, !Hl; try reflexivity;
    (change (byte ".") with 46 || change (byte "/") with 47); lia.
Qed.

Lemma lower_bytes_name s :
  all_bytes name_byte (map_bytes lower_byte s) = all_bytes name_byte s.
Proof.
  induction s as [|c s IH]; [reflexivity|].
  cbn [map_bytes all_bytes]. now rewrite lower_byte_name, IH.
Qed.

Lemma lower_byte_ascii c : (byte (lower_byte c) <? 128) = (byte c <? 128).
Proof.
  unfold lower_byte. byte_consts.
  destruct ((65 <=? byte c) && (byte c <=? 90)) eqn:E; [|reflexivity].
  zbool. rewrite byte_chr by lia. now zdecide.
Qed.

Lemma lower_bytes_ascii s : isASCII (map_bytes lower_byte s) = isASCII s.
Proof.
  unfold isASCII. induction s as [|c s IH]; [reflexivity|].
  cbn [map_bytes all_bytes]. byte_consts. now rewrite lower_byte_ascii, IH.
Qed.

Section FormatFacts.

Variable unicode_ToLower : Z -> Z.
Variable os_Open : string -> Result string.
Variable isJSON isSQL : string -> bool.

Local Abbreviation Format := (GetFileFormat unicode_ToLower os_Open isJSON isSQL).

Lemma ToLower_extension name :
  isASCII (map_bytes lower_byte name) = true ->
  strings_ToLower unicode_ToLower (String "." name)
  = String "." (map_bytes lower_byte name).
Proof.
  intros Hascii. rewrite lower_bytes_ascii in Hascii.
  unfold strings_ToLower.
  change (isASCII (String "." name)) with (isASCII name). now rewrite Hascii.
Qed.

Lemma Format_by_extension p name format :
  In (map_bytes lower_byte name, format) extension_table ->
  Format (p +:+ String "." name) = format.
Proof.
  intros Hin.
  assert (Hname : all_bytes name_byte (map_bytes lower_byte name) = true
                  /\ isASCII (map_bytes lower_byte name) = true).
  { cbn in Hin.
    repeat (destruct Hin as [[= <- _]|Hin]; [split; reflexivity|]).
    destruct Hin. }
  destruct Hname as [Hname Hascii]. rewrite lower_bytes_name in Hname.
  unfold GetFileFormat. rewrite (filepath_Ext_app p name Hname).
  rewrite (ToLower_extension name Hascii).
  cbn in Hin.
  repeat (destruct Hin as [[= <- <-]|Hin]; [reflexivity|]).
  destruct Hin.
Qed.

End FormatFacts.

(** X18: a path whose last extension is one of csv, json, xlsx, xls,
    dump, tar and sql, in any mix of upper and lower case, has its format
    decided by that extension alone: what stands before the last dot
    and what the file holds (or whether it exists) play no part. *)
Theorem format_by_extension
    (unicode_ToLower : Z -> Z) (os_Open : string -> Result string)
    (isJSON isSQL : string -> bool) (p name : string) (format : FileFormat) :
  In (map_bytes lower_byte name, format) extension_table ->
  GetFileFormat unicode_ToLower os_Open isJSON isSQL (p +:+ String "." name) = format.
Proof. apply Format_by_extension. Qed.

Lemma format_by_extension_witness :
  GetFileFormat simple_ToLower (one_file "other" "") (fun _ => true) (fun _ => true)
    "uploads/2024.Q1/Sales.CSV" = CSV.
Proof.
  apply (format_by_extension simple_ToLower (one_file "other" "")
           (fun _ => true) (fun _ => true) "uploads/2024.Q1/Sales" "CSV" CSV).
  cbn. tauto.
Defined.

(** ** Lower-casing a path that ends in ASCII *)

Lemma isASCII_app s a : isASCII (s +:+ a) = isASCII s && isASCII a.
Proof. apply all_bytes_app. Qed.

Lemma map_bytes_app f s a : map_bytes f (s +:+ a) = map_bytes f s +:+ map_bytes f a.
Proof.
  induction s as [|c s IH]; [reflexivity|].
  change (String c s +:+ a) with (String c (s +:+ a)). cbn [map_bytes].
  now rewrite IH.
Qed.

(** ASCII bytes after a sequence never complete it. *)
Lemma DecodeRune_app_ascii a c t :
  isASCII a = true ->
  utf8.DecodeRuneInString (String c (t +:+ a)) = utf8.DecodeRuneInString (String c t).
Proof.
  intros Ha.
  assert (Hno : forall lo hi a0 a', a = String a0 a' -> 128 <= lo ->
                                    utf8.between lo hi a0 = false).
  { intros lo hi a0 a' -> Hlo. cbn [isASCII all_bytes] in Ha.
    apply andb_true_iff in Ha as [Ha _]. apply Z.ltb_lt in Ha. byte_consts.
    unfold utf8.between. now rewrite leb_false by lia. }
  unfold utf8.DecodeRuneInString.
  destruct (byte c <? utf8.RuneSelf); [reflexivity|].
  destruct (utf8.first (byte c)) as [[[sz lo] hi]|] eqn:Hfirst; [|reflexivity].
  apply first_spec in Hfirst as [Hlo _].
  destruct t as [|c1 t1].
  { change (EmptyString +:+ a) with a. destruct a as [|a0 a']; [reflexivity|].
    now rewrite (Hno lo hi a0 a' eq_refl Hlo). }
  change (String c1 t1 +:+ a) with (String c1 (t1 +:+ a)). cbv beta iota.
  destruct (negb (utf8.between lo hi c1)); [reflexivity|].
  destruct (sz <=? 2); [reflexivity|].
  destruct t1 as [|c2 t2].
  { change (EmptyString +:+ a) with a. destruct a as [|a0 a']; [reflexivity|].
    now rewrite (Hno 128 191 a0 a' eq_refl ltac:(lia)). }
  change (String c2 t2 +:+ a) with (String c2 (t2 +:+ a)). cbv beta iota.
  destruct (negb (utf8.between 128 191 c2)); [reflexivity|].
  destruct (sz <=? 3); [reflexivity|].
  destruct t2 as [|c3 t3].
  { change (EmptyString +:+ a) with a. destruct a as [|a0 a']; [reflexivity|].
    now rewrite (Hno 128 191 a0 a' eq_refl ltac:(lia)). }
  reflexivity.
Qed.

Lemma high_bytes_length k : forall s, high_bytes k s -> (k <= String.length s)%nat.
Proof.
  induction k as [|k IH]; intros s Hs; [lia|].
  destruct s as [|c s]; [contradiction|]. destruct Hs as [_ Hs].
  apply IH in Hs. cbn. lia.
Qed.

Lemma DecodeRune_width c t :
  (Nat.pred (snd (utf8.DecodeRuneInString (String c t))) <= String.length t)%nat.
Proof.
  destruct (Z_lt_le_dec (byte c) 128) as [Hc|Hc].
  - rewrite DecodeRune_ascii by exact Hc. cbn. lia.
  - apply high_bytes_length, DecodeRune_high, Hc.
Qed.

Lemma Map_from_app mapping a s :
  isASCII a = true ->
  forall skip,
    (skip <= String.length s)%nat ->
    Map_from mapping skip (s +:+ a) = Map_from mapping skip s +:+ Map_from mapping 0 a.
Proof.
  intros Ha. induction s as [|c t IH]; intros skip Hskip.
  - cbn in Hskip. assert (skip = 0%nat) as -> by lia. reflexivity.
  - change (String c t +:+ a) with (String c (t +:+ a)). cbn [Map_from].
    destruct skip as [|k].
    + rewrite (DecodeRune_app_ascii a c t Ha).
      pose proof (DecodeRune_width c t) as Hw.
      destruct (utf8.DecodeRuneInString (String c t)) as [r width]. cbn [snd] in Hw.
      rewrite IH by exact Hw. now rewrite string_app_assoc.
    + apply IH. cbn in Hskip. lia.
Qed.

Section LowerPath.

Variable unicode_ToLower : Z -> Z.
Hypothesis facts : ToLower_facts unicode_ToLower.

Lemma Map_ToLower_ascii a :
  isASCII a = true -> Map_from unicode_ToLower 0 a = map_bytes lower_byte a.
Proof.
  induction a as [|c a IH]; [reflexivity|].
  cbn [isASCII all_bytes]. intros H. apply andb_true_iff in H as [Hc Ha].
  apply Z.ltb_lt in Hc. byte_consts. pose proof (byte_range c) as Hrc.
  cbn [Map_from map_bytes]. rewrite DecodeRune_ascii by exact Hc.
  rewrite (lower_ascii _ facts) by lia. cbn [Nat.pred]. rewrite (IH Ha).
  unfold lower_byte. byte_consts.
  destruct ((65 <=? byte c) && (byte c <=? 90)) eqn:E.
  - zbool. rewrite leb_true by lia. rewrite EncodeRune_ascii by lia. reflexivity.
  - rewrite leb_true by lia. rewrite EncodeRune_ascii by lia.
    now rewrite chr_byte.
Qed.

(** Lower-casing a string that ends in ASCII bytes lower-cases these
    bytes one by one, whatever stands before them. *)
Lemma ToLower_app_ascii s a :
  isASCII a = true ->
  strings_ToLower unicode_ToLower (s +:+ a)
  = strings_ToLower unicode_ToLower s +:+ map_bytes lower_byte a.
Proof.
  intros Ha. unfold strings_ToLower. rewrite isASCII_app, Ha, andb_true_r.
  destruct (isASCII s).
  - apply map_bytes_app.
  - unfold strings_Map. rewrite Map_from_app by (exact Ha || lia).
    now rewrite (Map_ToLower_ascii a Ha).
Qed.

End LowerPath.

Lemma substring_app_suffix x suffix :
  substring (String.length x) (String.length suffix) (x +:+ suffix) = suffix.
Proof.
  induction x as [|c x IH]; [|exact IH].
  cbn [String.length]. change (EmptyString +:+ suffix) with suffix.
  induction suffix as [|d suffix IHs]; [reflexivity|].
  cbn. now rewrite IHs.
Qed.

Lemma HasSuffix_app x suffix : strings_HasSuffix (x +:+ suffix) suffix = true.
Proof.
  unfold strings_HasSuffix. rewrite length_app_string.
  rewrite bool_decide_eq_true_2 by lia. cbn [andb].
  apply bool_decide_eq_true_2.
  replace (String.length x + String.length suffix - String.length suffix)%nat
    with (String.length x) by lia.
  apply substring_app_suffix.
Qed.

Lemma lower_byte_dot c : lower_byte c = "."%char -> c = "."%char.
Proof.
  intros H. pose proof (lower_byte_name c) as Hn. rewrite H in Hn.
  unfold name_byte in Hn. cbn in Hn. symmetry in Hn.
  apply andb_false_iff in Hn as [Hn|Hn]; apply negb_false_iff in Hn;
    apply bool_decide_eq_true in Hn; [exact Hn|].
  subst c. discriminate H.
Qed.

Section Archives.

Variable unicode_ToLower : Z -> Z.
Hypothesis facts : ToLower_facts unicode_ToLower.
Variable os_Open : string -> Result string.
Variable isJSON isSQL : string -> bool.

Lemma Format_targz q s :
  map_bytes lower_byte s = ".tar.gz" ->
  GetFileFormat unicode_ToLower os_Open isJSON isSQL (q +:+ s) = TARGZ.
Proof.
  intros Hs.
  assert (Hascii : isASCII s = true) by (rewrite <- lower_bytes_ascii, Hs; reflexivity).
  assert (Hlower : strings_ToLower unicode_ToLower (q +:+ s)
                   = strings_ToLower unicode_ToLower q +:+ ".tar.gz")
    by (rewrite (ToLower_app_ascii _ facts) by exact Hascii; now rewrite Hs).
  destruct s as [|c0 [|c1 [|c2 [|c3 [|c4 [|c5 [|c6 [|c7 s]]]]]]]]; try discriminate Hs.
  cbn [map_bytes] in Hs. injection Hs as H0 H1 H2 H3 H4 H5 H6.
  apply lower_byte_dot in H4. subst c4.
  assert (Hname : all_bytes name_byte (String c5 (String c6 EmptyString)) = true).
  { rewrite <- lower_bytes_name. cbn [map_bytes]. rewrite H5, H6. reflexivity. }
  unfold GetFileFormat. rewrite Hlower, HasSuffix_app.
  change (q +:+ String c0 (String c1 (String c2 (String c3
            (String "." (String c5 (String c6 EmptyString)))))))
    with (q +:+ (String c0 (String c1 (String c2 (String c3 EmptyString)))
                   +:+ String "." (String c5 (String c6 EmptyString)))).
  rewrite <- string_app_assoc. rewrite (filepath_Ext_app _ _ Hname).
  rewrite ToLower_extension by (cbn [map_bytes]; rewrite H5, H6; reflexivity).
  cbn [map_bytes]. rewrite H5, H6. reflexivity.
Qed.

End Archives.

(** X19: a path that ends in [.tar.gz], in any mix of upper and lower
    case, is a gzipped tar archive, whatever stands before and whatever
    the file holds. *)
Theorem format_of_tar_gz
    (unicode_ToLower : Z -> Z) (facts : ToLower_facts unicode_ToLower)
    (os_Open : string -> Result string) (isJSON isSQL : string -> bool)
    (q s : string) :
  map_bytes lower_byte s = ".tar.gz" ->
  GetFileFormat unicode_ToLower os_Open isJSON isSQL (q +:+ s) = TARGZ.
Proof. now apply Format_targz. Qed.

Lemma format_of_tar_gz_witness :
  GetFileFormat simple_ToLower (one_file "other" "") (fun _ => true) (fun _ => true)
    "backup/Dump.Tar.GZ" = TARGZ.
Proof.
  apply (format_of_tar_gz simple_ToLower simple_ToLower_facts (one_file "other" "")
           (fun _ => true) (fun _ => true) "backup/Dump" ".Tar.GZ").
  reflexivity.
Defined.

(** X20: tar archives are recognised and then turned away: for a path
    that ends in [.tar] or [.tar.gz] (in any case) extraction fails with
    "unsupported file format" and the path, without the file being
    opened or any extractor being run. *)
Theorem archives_are_unsupported
    (unicode_ToLower : Z -> Z) (facts : ToLower_facts unicode_ToLower)
    (os_Open : string -> Result string) (isJSON isSQL : string -> bool)
    (ExtractFromJSON ExtractFromXLSX ExtractFromXLS
       : string -> Result (list DataRecord))
    (p s : string) :
  map_bytes lower_byte s = ".tar" \/ map_bytes lower_byte s = ".tar.gz" ->
  ExtractFromFile unicode_ToLower os_Open isJSON isSQL
    ExtractFromJSON ExtractFromXLSX ExtractFromXLS (p +:+ s)
  = Fail (Errorf ("unsupported file format: " +:+ (p +:+ s))).
Proof.
  intros [Hs|Hs]; unfold ExtractFromFile.
  - destruct s as [|c0 name]; [discriminate|].
    cbn [map_bytes] in Hs. injection Hs as Hdot Hname.
    apply lower_byte_dot in Hdot. subst c0.
    rewrite (Format_by_extension unicode_ToLower os_Open isJSON isSQL p name TAR);
      [reflexivity|].
    rewrite Hname. cbn. tauto.
  - now rewrite (Format_targz unicode_ToLower facts os_Open isJSON isSQL p s Hs).
Qed.

Lemma archives_are_unsupported_witness :
  ExtractFromFile simple_ToLower (one_file "backup.TAR" "anything")
    (fun _ => true) (fun _ => true)
    (fun _ => Ok []) (fun _ => Ok []) (fun _ => Ok []) "backup.TAR"
  = Fail (Errorf "unsupported file format: backup.TAR").
Proof.
  apply (archives_are_unsupported simple_ToLower simple_ToLower_facts
           (one_file "backup.TAR" "anything") (fun _ => true) (fun _ => true)
           (fun _ => Ok []) (fun _ => Ok []) (fun _ => Ok []) "backup" ".TAR").
  left. reflexivity.
Defined.

(** X21: a dump never yields a record: for a path with the extension
    [dump] or [sql] (in any case) extraction returns the empty sequence
    whenever the file can be opened, whatever it holds, and the error of
    opening it otherwise. *)
Theorem dumps_yield_no_records
    (unicode_ToLower : Z -> Z)
    (os_Open : string -> Result string) (isJSON isSQL : string -> bool)
    (ExtractFromJSON ExtractFromXLSX ExtractFromXLS
       : string -> Result (list DataRecord))
    (p name : string) :
  map_bytes lower_byte name = "dump" \/ map_bytes lower_byte name = "sql" ->
  ExtractFromFile unicode_ToLower os_Open isJSON isSQL
    ExtractFromJSON ExtractFromXLSX ExtractFromXLS (p +:+ String "." name)
  = match os_Open (p +:+ String "." name) with
    | Ok _ => Ok []
    | Fail err => Fail err
    end.
Proof.
  intros Hname. unfold ExtractFromFile.
  destruct Hname as [Hname|Hname].
  - rewrite (Format_by_extension unicode_ToLower os_Open isJSON isSQL p name DUMP)
      by (rewrite Hname; cbn; tauto).
    unfold ExtractFromDump. now destruct (os_Open _).
  - rewrite (Format_by_extension unicode_ToLower os_Open isJSON isSQL p name SQL)
      by (rewrite Hname; cbn; tauto).
    unfold ExtractFromDump. now destruct (os_Open _).
Qed.

Lemma dumps_yield_no_records_witness :
  ExtractFromFile simple_ToLower
    (one_file "db/export.SQL" "INSERT INTO t VALUES (1);")
    (fun _ => false) (fun _ => true)
    (fun _ => Ok []) (fun _ => Ok []) (fun _ => Ok []) "db/export.SQL"
  = Ok [].
Proof.
  exact (dumps_yield_no_records simple_ToLower
           (one_file "db/export.SQL" "INSERT INTO t VALUES (1);")
           (fun _ => false) (fun _ => true)
           (fun _ => Ok []) (fun _ => Ok []) (fun _ => Ok []) "db/export" "SQL"
           (or_intror eq_refl)).
Defined.

(** ** The e-mail configuration *)

Lemma append_if_subscribed_spec reportType recipient types recipients :
  append_if_subscribed reportType recipient types recipients
  = recipients ++ (if bool_decide (reportType ∈ types) then [recipient] else []).
Proof.
  induction types as [|rt rest IH]; cbn [append_if_subscribed].
  - rewrite bool_decide_eq_false_2 by apply not_elem_of_nil. now rewrite app_nil_r.
  - destruct (decide (rt = reportType)) as [Heq|Hne].
    + rewrite (bool_decide_eq_true_2 (rt = reportType)) by exact Heq.
      rewrite (bool_decide_eq_true_2 (reportType ∈ rt :: rest))
        by (apply elem_of_cons; left; now symmetry).
      reflexivity.
    + rewrite (bool_decide_eq_false_2 (rt = reportType)) by exact Hne.
      rewrite IH. f_equal.
      destruct (decide (reportType ∈ rest)) as [Hin|Hout].
      * rewrite (bool_decide_eq_true_2 (reportType ∈ rest)) by exact Hin.
        rewrite (bool_decide_eq_true_2 (reportType ∈ rt :: rest))
          by (apply elem_of_cons; right; exact Hin).
        reflexivity.
      * rewrite (bool_decide_eq_false_2 (reportType ∈ rest)) by exact Hout.
        rewrite (bool_decide_eq_false_2 (reportType ∈ rt :: rest)); [reflexivity|].
        rewrite elem_of_cons. intros [Heq|Hin]; [now apply Hne|now apply Hout].
Qed.

(** X22: the recipients of a report type are those whose list of
    report types holds it, each once and in the order of the
    configuration, also when a recipient lists the type more than once. *)
Theorem recipients_by_report_type (ec : EmailConfig) (reportType : string) :
  GetRecipientsByReportType ec reportType
  = List.filter (fun recipient => bool_decide (reportType ∈ ReportTypes recipient))
      (Recipients ec).
Proof.
  unfold GetRecipientsByReportType.
  assert (H : forall rs acc,
             fold_left
               (fun recipients recipient =>
                  append_if_subscribed reportType recipient (ReportTypes recipient)
                    recipients) rs acc
             = acc ++ List.filter
                 (fun recipient =>
                    bool_decide (reportType ∈ ReportTypes recipient)) rs).
  { induction rs as [|r rs IH]; intros acc; cbn [fold_left List.filter].
    - now rewrite app_nil_r.
    - rewrite IH, append_if_subscribed_spec.
      destruct (bool_decide _); rewrite <- app_assoc; reflexivity. }
  apply H.
Qed.

Lemma step_nil (b : bool) (errors : list string) msg :
  (if b then errors ++ [msg] else errors) = [] <-> b = false /\ errors = [].
Proof.
  destruct b; [|tauto]. split; [|intros [[=] _]].
  intros H. destruct errors; discriminate.
Qed.

Lemma step2_nil (b1 b2 : bool) (errors : list string) msg1 msg2 :
  (if b1 then errors ++ [msg1] else if b2 then errors ++ [msg2] else errors) = []
  <-> b1 = false /\ b2 = false /\ errors = [].
Proof.
  destruct b1.
  - split; [|intros [[=] _]]. intros H. destruct errors; discriminate.
  - rewrite step_nil. tauto.
Qed.

Section ValidateFacts.

Variable ValidateEmail : string -> bool.

Lemma validate_recipient_nil errors i recipient :
  validate_recipient ValidateEmail errors i recipient = []
  <-> errors = [] /\ recipient_ok ValidateEmail recipient.
Proof.
  unfold validate_recipient, recipient_ok. cbv zeta.
  rewrite step_nil, step2_nil, step_nil.
  rewrite !bool_decide_eq_false, negb_false_iff.
  assert (Htypes : length (ReportTypes recipient) <> 0%nat <-> ReportTypes recipient <> [])
    by (destruct (ReportTypes recipient); cbn; split; congruence).
  rewrite Htypes. tauto.
Qed.

Lemma validate_recipients_nil recipients :
  forall errors i,
    validate_recipients ValidateEmail errors i recipients = []
    <-> errors = [] /\ Forall (recipient_ok ValidateEmail) recipients.
Proof.
  induction recipients as [|r rs IH]; intros errors i; cbn [validate_recipients].
  - split; [intros ->; split; [reflexivity|constructor]|tauto].
  - rewrite IH, validate_recipient_nil. rewrite Forall_cons. tauto.
Qed.

End ValidateFacts.

(** X23: a configuration passes validation (the list of complaints is
    empty) exactly when every recipient has a name, a non-empty address
    that [ValidateEmail] accepts and at least one report type, the SMTP
    host, user name and sender are non-empty, the port is not 0, and at
    least one report is configured.  The password, the encryption and
    whether the recipients' report types are configured at all are not
    looked at. *)
Theorem valid_configuration (ValidateEmail : string -> bool) (ec : EmailConfig) :
  ValidateConfig ValidateEmail ec = []
  <-> Forall (recipient_ok ValidateEmail) (Recipients ec)
      /\ Host (SMTP ec) <> EmptyString
      /\ Port (SMTP ec) <> 0
      /\ Username (SMTP ec) <> EmptyString
      /\ From (SMTP ec) <> EmptyString
      /\ Reports ec <> ∅.
Proof.
  unfold ValidateConfig. cbv zeta.
  rewrite !step_nil, validate_recipients_nil, !bool_decide_eq_false.
  rewrite map_size_empty_iff. tauto.
Qed.

(** ** Runs over a query *)

Lemma row_record_absent columns :
  forall i values (record : DataRecord) col,
    ~ In col columns -> row_record i columns values record !! col = record !! col.
Proof.
  induction columns as [|c rest IH]; intros i values record col Hnot;
    cbn [row_record]; [reflexivity|].
  rewrite IH by (intros H; apply Hnot; now right).
  apply lookup_insert_ne. intros ->. apply Hnot. now left.
Qed.

Lemma row_record_last columns :
  forall i values (record : DataRecord) (j : nat) col,
    columns !! j = Some col ->
    (forall j' : nat, (j < j')%nat -> columns !! j' <> Some col) ->
    row_record i columns values record !! col
    = Some (default VNil (values !! (i + j)%nat)).
Proof.
  induction columns as [|c rest IH]; intros i values record j col Hc Hlast;
    [discriminate|].
  cbn [row_record]. destruct j as [|j]; cbn in Hc.
  - injection Hc as ->. rewrite Nat.add_0_r.
    rewrite row_record_absent; [apply lookup_insert_eq|].
    intros Hin. apply list_elem_of_In, list_elem_of_lookup_1 in Hin as [k Hk].
    apply (Hlast (S k)); [lia|exact Hk].
  - rewrite (IH (S i) values _ j col Hc).
    + now rewrite Nat.add_succ_l, <- Nat.add_succ_r.
    + intros j' Hlt. apply (Hlast (S j')). lia.
Qed.

Lemma scan_records_all_ok columns rows :
  forall data,
    scan_records columns (map Ok rows) data
    = Ok (data ++ map (fun values => row_record 0 columns values ∅) rows).
Proof.
  induction rows as [|values rest IH]; intros data; cbn [map scan_records].
  - now rewrite app_nil_r.
  - rewrite IH, <- app_assoc. reflexivity.
Qed.

Lemma scan_records_failure columns before err after :
  forall data,
    scan_records columns (map Ok before ++ Fail err :: after) data = Fail err.
Proof.
  induction before as [|values rest IH]; intros data; cbn [map app scan_records];
    [reflexivity|apply IH].
Qed.

(** X24: a query is extracted into one record per row, each binding
    every column name to the value scanned for it (for a name that
    occurs more than once, the value of its rightmost column) and
    nothing else.  If scanning fails on any row, the rows scanned before
    it are dropped too: the result is that error. *)
Theorem query_records_follow_columns
    (Rows_reply : list Event -> string -> Result Rows)
    (query : string) (trace : list Event) (rows : Rows) (columns : list string) :
  Rows_reply trace query = Ok rows ->
  rows_Columns rows = Ok columns ->
  (forall scanned,
      rows_Scan rows = map Ok scanned ->
      exists records,
        fst (ExtractFromSQL Rows_reply query trace) = Ok records
        /\ length records = length scanned
        /\ forall (i : nat) values,
            scanned !! i = Some values ->
            exists record : DataRecord,
              records !! i = Some record
              /\ (forall (j : nat) col,
                    columns !! j = Some col ->
                    (forall j' : nat, (j < j')%nat -> columns !! j' <> Some col) ->
                    record !! col = Some (default VNil (values !! j)))
              /\ (forall col, ~ In col columns -> record !! col = None))
  /\ (forall before err after,
        rows_Scan rows = map Ok before ++ Fail err :: after ->
        fst (ExtractFromSQL Rows_reply query trace) = Fail err).
Proof.
  intros Hq Hc. unfold ExtractFromSQL. cbn [fst]. rewrite Hq, Hc. split.
  - intros scanned Hs. rewrite Hs, scan_records_all_ok. cbn [app].
    eexists. split; [reflexivity|]. split; [apply length_map|].
    intros i values Hi. eexists.
    split; [rewrite list_lookup_fmap, Hi; reflexivity|]. split.
    + intros j col Hcol Hlast. now rewrite (row_record_last columns 0 values ∅ j col).
    + intros col Hnot. rewrite row_record_absent by exact Hnot. apply lookup_empty.
  - intros before err after Hs. rewrite Hs. apply scan_records_failure.
Qed.

Lemma query_records_follow_columns_witness :
  fst (ExtractFromSQL
         (fun _ _ => Ok {| rows_Columns := Ok ["id"; "name"];
                           rows_Scan := [Ok [VInt 1; VString "John"];
                                         Fail (External "bad row")] |})
         "SELECT id, name FROM customers" [])
  = Fail (External "bad row").
Proof.
  destruct (query_records_follow_columns
              (fun _ _ => Ok {| rows_Columns := Ok ["id"; "name"];
                                rows_Scan := [Ok [VInt 1; VString "John"];
                                              Fail (External "bad row")] |})
              "SELECT id, name FROM customers" []
              {| rows_Columns := Ok ["id"; "name"];
                 rows_Scan := [Ok [VInt 1; VString "John"];
                               Fail (External "bad row")] |}
              ["id"; "name"] eq_refl eq_refl) as [_ Hfail].
  apply (Hfail [[VInt 1; VString "John"]] (External "bad row") []). reflexivity.
Defined.

(** X25: a run over a query first asks the database for the rows.  If
    that fails the run ends there, with nothing archived and nothing
    loaded.  Otherwise it goes on exactly as a run over a file that
    yields these rows and has the base name [sql_] followed by the whole
    text of the query: the batch is archived as [raw/raw_sql_<query>]. *)
Theorem query_run_is_a_file_run
    (unicode_ToLower : Z -> Z)
    (json_Marshal : list DataRecord -> Result string)
    (Rows_reply : list Event -> string -> Result Rows)
    (e : ETLService) (query : string) (trace : list Event) :
  ProcessETLFromSQL unicode_ToLower json_Marshal Rows_reply e query trace
  = match fst (ExtractFromSQL Rows_reply query trace) with
    | Fail err =>
        (Some (Wrap "extract from SQL failed: " err), trace ++ [Query query []])
    | Ok data =>
        ProcessETLFromFile unicode_ToLower json_Marshal
          (fun _ => Ok data) (fun _ => "sql_" +:+ query) e query
          (trace ++ [Query query []])
    end.
Proof.
  unfold ProcessETLFromSQL, ProcessETLFromFile, bind.
  destruct (ExtractFromSQL Rows_reply query trace) as [[data|err] trace'] eqn:Hx.
  - unfold ExtractFromSQL in Hx. injection Hx as _ <-. reflexivity.
  - unfold ExtractFromSQL in Hx. injection Hx as _ <-. reflexivity.
Qed.

(** ** Formats told from the content *)

Lemma Format_by_content
    (unicode_ToLower : Z -> Z) (os_Open : string -> Result string)
    (isJSON isSQL : string -> bool) (filePath : string) :
  strings_ToLower unicode_ToLower (filepath_Ext filePath) ∉ known_extensions ->
  GetFileFormat unicode_ToLower os_Open isJSON isSQL filePath
  = identifyFormatByContent os_Open isJSON isSQL filePath.
Proof.
  intros Hnot. unfold GetFileFormat. cbv zeta.
  repeat (case_bool_decide as Hext;
          [exfalso; apply Hnot; rewrite Hext; unfold known_extensions;
           set_solver|clear Hext]).
  reflexivity.
Qed.

Lemma take_bytes_S n c t :
  take_bytes (S n) (String c t) = String c (take_bytes n t).
Proof. reflexivity. Qed.

(** X26: when the extension of a path is none of those the service
    knows and the file cannot be opened, extraction fails with
    "unsupported file format" and the path: the error of opening the
    file is not reported, and no extractor is run. *)
Theorem unreadable_file_is_unsupported
    (unicode_ToLower : Z -> Z)
    (os_Open : string -> Result string) (isJSON isSQL : string -> bool)
    (ExtractFromJSON ExtractFromXLSX ExtractFromXLS
       : string -> Result (list DataRecord))
    (filePath : string) (err : error) :
  strings_ToLower unicode_ToLower (filepath_Ext filePath) ∉ known_extensions ->
  os_Open filePath = Fail err ->
  ExtractFromFile unicode_ToLower os_Open isJSON isSQL
    ExtractFromJSON ExtractFromXLSX ExtractFromXLS filePath
  = Fail (Errorf ("unsupported file format: " +:+ filePath)).
Proof.
  intros Hext Hopen. unfold ExtractFromFile.
  rewrite (Format_by_content _ _ _ _ _ Hext).
  unfold identifyFormatByContent. now rewrite Hopen.
Qed.

Lemma unreadable_file_is_unsupported_witness :
  ExtractFromFile simple_ToLower (one_file "data/export.csv" "id,name")
    (fun _ => false) (fun _ => false)
    (fun _ => Ok []) (fun _ => Ok []) (fun _ => Ok []) "data/export.txt"
  = Fail (Errorf "unsupported file format: data/export.txt").
Proof.
  apply (unreadable_file_is_unsupported simple_ToLower
           (one_file "data/export.csv" "id,name")
           (fun _ => false) (fun _ => false)
           (fun _ => Ok []) (fun _ => Ok []) (fun _ => Ok [])
           "data/export.txt" (External "open: no such file or directory")).
  - apply (bool_decide_unpack _). vm_compute. exact I.
  - reflexivity.
Defined.

(** X27: when the extension of a path is none of those the service
    knows, a file of at least four bytes that starts with the two bytes
    [PK] and that is not JSON is read as an XLSX workbook, whatever the
    archive really holds; and a file that starts with [D0 CF 11 E0] and
    has at least eight bytes, but not the [PK] mark, as an XLS one. *)
Theorem signature_decides_the_extractor
    (unicode_ToLower : Z -> Z)
    (os_Open : string -> Result string) (isJSON isSQL : string -> bool)
    (ExtractFromJSON ExtractFromXLSX ExtractFromXLS
       : string -> Result (list DataRecord))
    (filePath content : string) :
  strings_ToLower unicode_ToLower (filepath_Ext filePath) ∉ known_extensions ->
  os_Open filePath = Ok content ->
  isJSON (take_bytes 512 content) = false ->
  (forall c2 c3 rest,
      content = String "P" (String "K" (String c2 (String c3 rest))) ->
      ExtractFromFile unicode_ToLower os_Open isJSON isSQL
        ExtractFromJSON ExtractFromXLSX ExtractFromXLS filePath
      = ExtractFromXLSX filePath)
  /\ (forall c4 c5 c6 c7 rest,
        content = String (chr 208) (String (chr 207) (String (chr 17)
                    (String (chr 224)
                       (String c4 (String c5 (String c6 (String c7 rest))))))) ->
        ExtractFromFile unicode_ToLower os_Open isJSON isSQL
          ExtractFromJSON ExtractFromXLSX ExtractFromXLS filePath
        = ExtractFromXLS filePath).
Proof.
  intros Hext Hopen Hjson. unfold ExtractFromFile.
  rewrite (Format_by_content _ _ _ _ _ Hext).
  unfold identifyFormatByContent. rewrite Hopen. cbv zeta. rewrite Hjson.
  split.
  - intros c2 c3 rest ->. rewrite !take_bytes_S.
    generalize (take_bytes 508 rest). intros tail.
    unfold isXLSX, len. cbn [String.length].
    destruct (Z.ltb_spec (Z.of_nat (S (S (S (S (String.length tail)))))) 4)
      as [Hlt|_]; [lia|].
    reflexivity.
  - intros c4 c5 c6 c7 rest ->. rewrite !take_bytes_S.
    generalize (take_bytes 504 rest). intros tail.
    unfold isXLSX, isXLS, len. cbn [String.length].
    destruct (Z.ltb_spec
                (Z.of_nat (S (S (S (S (S (S (S (S (String.length tail)))))))))) 4)
      as [Hlt|_]; [lia|].
    destruct (Z.ltb_spec
                (Z.of_nat (S (S (S (S (S (S (S (S (String.length tail)))))))))) 8)
      as [Hlt|_]; [lia|].
    reflexivity.
Qed.

Lemma signature_decides_the_extractor_witness :
  ExtractFromFile simple_ToLower (one_file "upload" "PK-anything")
    (fun _ => false) (fun _ => false)
    (fun _ => Ok []) (fun _ => Fail (External "zip: not a workbook"))
    (fun _ => Ok []) "upload"
  = Fail (External "zip: not a workbook").
Proof.
  destruct (signature_decides_the_extractor simple_ToLower
              (one_file "upload" "PK-anything")
              (fun _ => false) (fun _ => false)
              (fun _ => Ok []) (fun _ => Fail (External "zip: not a workbook"))
              (fun _ => Ok []) "upload" "PK-anything") as [Hzip _].
  - apply (bool_decide_unpack _). vm_compute. exact I.
  - reflexivity.
  - reflexivity.
  - exact (Hzip "-"%char "a"%char "nything" eq_refl).
Defined.
